(** * Threshold-sweep validation of a segmentation model (model/val.py)

    A shallow embedding of [post], [metrics] and the threshold sweep of
    [main], with the properties of the validation report.

    Arrays are two-dimensional numpy arrays: a shape and the rows of
    pixels.  Floating-point arithmetic is an interface ([Arith]) with two
    instances: IEEE binary64 (Rocq's primitive floats, which compute) and
    the extended reals [xreal] (exact arithmetic with the IEEE special
    values, no rounding), on which the numeric bounds are proved. *)

From Stdlib Require Import Floats.PrimFloat.
From Stdlib Require Floats.FloatAxioms Floats.SpecFloat.
From Stdlib Require Numbers.Cyclic.Int63.Uint63.
From Stdlib Require Import ZArith Reals Lra Lia Strings.Ascii.
From stdpp Require Import base list strings.

Set Default Proof Using "Type".

(** ** Errors *)

(** The Python exceptions the modelled code can raise. *)
Inductive error : Type :=
  | ValueError   (* numpy: shapes do not broadcast, empty reduction, randint(0) *)
  | IndexError   (* boolean mask of another shape, row[k] out of range *)
  | IOError      (* imread on a missing or unreadable file *)
  | NameError.   (* a variable read before any assignment *)

Inductive result (A : Type) : Type :=
  | Ok (a : A)
  | Err (e : error).
Arguments Ok {A} a.
Arguments Err {A} e.

(** [result] is a monad; stdpp's notation [x ← m; k] sequences it. *)
#[global] Instance result_ret : MRet result := λ A a, Ok a.
#[global] Instance result_bind : MBind result := λ A B k m,
  match m with
  | Ok a => k a
  | Err e => Err e
  end.
#[global] Instance result_fmap : FMap result := λ A B f m,
  match m with
  | Ok a => Ok (f a)
  | Err e => Err e
  end.

(** ** numpy arrays *)

(** A two-dimensional array: [shape] is (rows, columns), [rows] the pixels
    row by row. *)
Record ndarray (A : Type) : Type := NDArray {
  shape : nat * nat;
  rows : list (list A)
}.
Arguments NDArray {A} shape rows.
Arguments shape {A} _.
Arguments rows {A} _.

(** numpy indexes with [intp]: an array has fewer than 2^63 elements. *)
Definition max_size : Z := 2 ^ 63 - 1.

Definition size {A} (a : ndarray A) : nat := (shape a).1 * (shape a).2.

(** Well-formed arrays: the rows agree with the shape. *)
Definition wf {A} (a : ndarray A) : Prop :=
  length (rows a) = (shape a).1 ∧
  Forall (λ r, length r = (shape a).2) (rows a) ∧
  (Z.of_nat (size a) ≤ max_size)%Z.

(** [a[i, j]] for an index inside the array. *)
Definition pixel {A} (a : ndarray A) (i j : nat) : option A :=
  rows a !! i ≫= (.!! j).

(** The pixels in row-major order ([a.ravel()]). *)
Definition ravel {A} (a : ndarray A) : list A := concat (rows a).

(** [np.ones(shape, dtype='uint8') * v]: every pixel is [v]. *)
Definition full {A} (s : nat * nat) (v : A) : ndarray A :=
  NDArray s (replicate s.1 (replicate s.2 v)).

(** An operation applied to every pixel ([a == v], [a >= t], ...). *)
Definition amap {A B} (f : A → B) (a : ndarray A) : ndarray B :=
  NDArray (shape a) (fmap (M:=list) f <$> rows a).

(** [a[mask] = v].  A mask of the shape of [a] selects the pixels to set.
    For a mask of another shape numpy compares the extents axis by axis
    and raises IndexError where they differ, except on an axis on which
    the mask has extent 0, which it does not compare: a mask that passes
    with another shape has no element, and nothing is assigned. *)
Definition setmask {A} (a : ndarray A) (mask : ndarray bool) (v : A)
    : result (ndarray A) :=
  if decide (shape mask = shape a) then
    Ok (NDArray (shape a)
          (zip_with (zip_with (λ x (m : bool), if m then v else x))
                    (rows a) (rows mask)))
  else if decide (((shape mask).1 = 0 ∨ (shape mask).1 = (shape a).1)
                  ∧ ((shape mask).2 = 0 ∨ (shape mask).2 = (shape a).2))
  then Ok a
  else Err IndexError.

(** Broadcasting of one dimension: equal extents, or one of them is 1. *)
Definition broadcast_dim (m n : nat) : option nat :=
  if decide (m = n) then Some m
  else if decide (m = 1) then Some n
  else if decide (n = 1) then Some m
  else None.

Definition broadcast_shape (s1 s2 : nat * nat) : option (nat * nat) :=
  h ← broadcast_dim s1.1 s2.1; w ← broadcast_dim s1.2 s2.2; Some (h, w).

(** An axis of extent [have] stretched to extent [want]: unchanged when the
    extents agree, else ([have = 1]) its single entry repeated. *)
Definition stretch {B} (want have : nat) (l : list B) : list B :=
  if decide (have = want) then l
  else match l with
       | x :: _ => replicate want x
       | [] => []
       end.

Definition broadcast_to {A} (s : nat * nat) (a : ndarray A) : list (list A) :=
  stretch s.1 (shape a).1 (stretch s.2 (shape a).2 <$> rows a).

(** A binary operation on two arrays, pixel by pixel after broadcasting. *)
Definition azip {A B C} (f : A → B → C) (a : ndarray A) (b : ndarray B)
    : result (ndarray C) :=
  match broadcast_shape (shape a) (shape b) with
  | Some s =>
      Ok (NDArray s (zip_with (zip_with f) (broadcast_to s a) (broadcast_to s b)))
  | None => Err ValueError
  end.

Definition logical_and : ndarray bool → ndarray bool → result (ndarray bool) :=
  azip andb.

(** ** Machine integers *)

(** A value reduced to the signed 64-bit range, as int64 arithmetic does. *)
Definition int64 (z : Z) : Z := ((z + 2 ^ 63) `mod` 2 ^ 64 - 2 ^ 63)%Z.

Definition add64 (a b : Z) : Z := int64 (a + b).

(** [np.sum] of a boolean array: the number of true pixels, as an int64. *)
Definition np_sum (a : ndarray bool) : Z :=
  foldl (λ acc (b : bool), add64 acc (if b then 1 else 0)) 0%Z (ravel a).

(** ** Floating-point arithmetic *)

(** The float64 operations the program uses.  [of_int] converts an int64 or
    a Python int, [fge x y] is [x >= y], [epsilon] the literal [1e-7]. *)
Class Arith (F : Type) : Type := {
  of_int : Z → F;
  fneg : F → F;
  fadd : F → F → F;
  fsub : F → F → F;
  fmul : F → F → F;
  fdiv : F → F → F;
  fsqrt : F → F;
  fge : F → F → bool;
  epsilon : F
}.

(** Comparison is transitive (it is on the reals and on IEEE floats, where
    a comparison with NaN is false). *)
Class ArithOrder (F : Type) `{Arith F} : Prop :=
  fge_trans : ∀ x y z : F, fge x y = true → fge y z = true → fge x z = true.

(** [np.exp] and [np.log]. *)
Class Transcendental (F : Type) : Type := {
  fexp : F → F;
  flog : F → F
}.

(** *** IEEE binary64 *)

Definition float_of_int (z : Z) : PrimFloat.float :=
  if (z <? 0)%Z then PrimFloat.opp (PrimFloat.of_uint63 (Uint63.of_Z (- z)))
  else PrimFloat.of_uint63 (Uint63.of_Z z).

#[global, warnings="-inexact-float"] Instance float_arith : Arith PrimFloat.float := {|
  of_int := float_of_int;
  fneg := PrimFloat.opp;
  fadd := PrimFloat.add;
  fsub := PrimFloat.sub;
  fmul := PrimFloat.mul;
  fdiv := PrimFloat.div;
  fsqrt := PrimFloat.sqrt;
  fge x y := PrimFloat.leb y x;
  epsilon := 1e-7%float
|}.

(** *** Extended reals *)

(** Exact real arithmetic with the special values of IEEE arithmetic:
    division by zero gives an infinity or NaN, as numpy's float64 does,
    and nothing is rounded. *)
Inductive xreal : Type :=
  | Fin (r : R)
  | PInf
  | NInf
  | NaN.

Definition xneg (x : xreal) : xreal :=
  match x with
  | Fin a => Fin (- a)
  | PInf => NInf
  | NInf => PInf
  | NaN => NaN
  end.

Definition xadd (x y : xreal) : xreal :=
  match x, y with
  | NaN, _ | _, NaN => NaN
  | PInf, NInf | NInf, PInf => NaN
  | PInf, _ | _, PInf => PInf
  | NInf, _ | _, NInf => NInf
  | Fin a, Fin b => Fin (a + b)
  end.

Definition xsub (x y : xreal) : xreal := xadd x (xneg y).

(** An infinity of the sign of [a] when [a] is not zero. *)
Definition xinf_signed (pos : xreal) (a : R) : xreal :=
  if Req_dec_T a 0%R then NaN
  else if Rlt_dec 0%R a then pos else xneg pos.

Definition xmul (x y : xreal) : xreal :=
  match x, y with
  | NaN, _ | _, NaN => NaN
  | Fin a, Fin b => Fin (a * b)
  | PInf, Fin a | Fin a, PInf => xinf_signed PInf a
  | NInf, Fin a | Fin a, NInf => xinf_signed NInf a
  | PInf, PInf | NInf, NInf => PInf
  | PInf, NInf | NInf, PInf => NInf
  end.

Definition xdiv (x y : xreal) : xreal :=
  match x, y with
  | NaN, _ | _, NaN => NaN
  | Fin a, Fin b => if Req_dec_T b 0%R then xinf_signed PInf a else Fin (a / b)
  | Fin _, (PInf | NInf) => Fin 0%R
  | PInf, Fin b => if Rlt_dec b 0%R then NInf else PInf
  | NInf, Fin b => if Rlt_dec b 0%R then PInf else NInf
  | (PInf | NInf), (PInf | NInf) => NaN
  end.

Definition xsqrt (x : xreal) : xreal :=
  match x with
  | Fin a => if Rlt_dec a 0%R then NaN else Fin (sqrt a)
  | PInf => PInf
  | NInf | NaN => NaN
  end.

#[global] Instance Rle_decision (x y : R) : Decision (x <= y)%R := Rle_dec x y.

Definition xge (x y : xreal) : bool :=
  match x, y with
  | NaN, _ | _, NaN => false
  | PInf, _ | _, NInf => true
  | _, PInf | NInf, _ => false
  | Fin a, Fin b => bool_decide (b <= a)%R
  end.

Definition xexp (x : xreal) : xreal :=
  match x with
  | Fin a => Fin (exp a)
  | PInf => PInf
  | NInf => Fin 0%R
  | NaN => NaN
  end.

Definition xlog (x : xreal) : xreal :=
  match x with
  | Fin a => if Rlt_dec a 0%R then NaN
             else if Req_dec_T a 0%R then NInf else Fin (ln a)
  | PInf => PInf
  | NInf | NaN => NaN
  end.

#[global] Instance xreal_arith : Arith xreal := {|
  of_int z := Fin (IZR z);
  fneg := xneg;
  fadd := xadd;
  fsub := xsub;
  fmul := xmul;
  fdiv := xdiv;
  fsqrt := xsqrt;
  fge := xge;
  epsilon := Fin 1e-7%R
|}.

#[global] Instance xreal_transcendental : Transcendental xreal := {|
  fexp := xexp;
  flog := xlog
|}.

(** ** The confusion matrix *)

(** [np.sum(np.logical_and(segmentation == s, on_label(label)))]. *)
Definition count_and (s : Z) (on_label : Z → bool)
    (segmentation label : ndarray Z) : result Z :=
  both ← logical_and (amap (λ x, x =? s)%Z segmentation) (amap on_label label);
  mret (np_sum both).

(** Lines 44-47 of [metrics]. *)
Definition true_positives : ndarray Z → ndarray Z → result Z :=
  count_and 255 (λ l, l =? 255)%Z.
Definition false_positives : ndarray Z → ndarray Z → result Z :=
  count_and 255 (λ l, negb (l =? 255))%Z.
Definition true_negatives : ndarray Z → ndarray Z → result Z :=
  count_and 127 (λ l, l =? 127)%Z.
Definition false_negatives : ndarray Z → ndarray Z → result Z :=
  count_and 127 (λ l, negb (l =? 127))%Z.

(** ** The mask post-processor *)

Section Program.
Context {F : Type} `{Arith F}.

(** [post(logits, label, threshold)]. *)
Definition post (logits : ndarray F) (label : ndarray Z) (threshold : F)
    : result (ndarray Z) :=
  let thresholded := full (shape logits) 127%Z in
  thresholded ← setmask thresholded (amap (λ x, fge x threshold) logits) 255%Z;
  thresholded ← setmask thresholded (amap (λ l, l =? 0)%Z label) 0%Z;
  mret thresholded.

(** ** The metric calculator *)

(** [metrics(segmentation, label)]. *)
Definition metrics (segmentation label : ndarray Z) : result (list F) :=
  true_positive ← true_positives segmentation label;
  false_positive ← false_positives segmentation label;
  true_negative ← true_negatives segmentation label;
  false_negative ← false_negatives segmentation label;
  let accuracy :=
    fdiv (of_int (add64 true_positive true_negative))
         (fadd (of_int (add64 (add64 (add64 true_positive true_negative)
                                     false_positive) false_negative))
               epsilon) in
  let sensitivity :=
    fdiv (of_int true_positive)
         (fadd (of_int (add64 true_positive false_negative)) epsilon) in
  let specificity :=
    fdiv (of_int true_negative)
         (fadd (of_int (add64 false_positive true_negative)) epsilon) in
  let precision :=
    fdiv (of_int true_positive)
         (fadd (of_int (add64 true_positive false_positive)) epsilon) in
  let recall := sensitivity in
  let iou :=
    fdiv (of_int true_positive)
         (fadd (of_int (add64 (add64 true_positive false_positive)
                              false_negative))
               epsilon) in
  let f1 :=
    fdiv (fmul (fmul (of_int 2) precision) recall)
         (fadd (fadd precision recall) epsilon) in
  let g_mean := fsqrt (fmul sensitivity specificity) in
  mret [iou; f1; g_mean; accuracy; sensitivity; specificity; precision;
        recall].


(** ** The threshold sampler *)

Context `{Transcendental F}.

(** A NaN is the only value that is not [>=] itself. *)
Definition is_nan (x : F) : bool := negb (fge x x).

(** One step of numpy's [min] and [max] over an array: a NaN is handed
    on, and of two equal values the later one is kept. *)
Definition fmin2 (x y : F) : F :=
  if is_nan x then x else if is_nan y then y
  else if fge x y then y else x.

Definition fmax2 (x y : F) : F :=
  if is_nan x then x else if is_nan y then y
  else if fge y x then y else x.

(** [a.min()] and [a.max()]; numpy raises ValueError on an empty array. *)
Definition amin (a : ndarray F) : result F :=
  match ravel a with
  | [] => Err ValueError
  | x :: l => Ok (foldl fmin2 x l)
  end.

Definition amax (a : ndarray F) : result F :=
  match ravel a with
  | [] => Err ValueError
  | x :: l => Ok (foldl fmax2 x l)
  end.

(** [1 / (1 + np.exp(-x))]. *)
Definition sigmoid (x : F) : F :=
  fdiv (of_int 1) (fadd (of_int 1) (fexp (fneg x))).

(** [np.log(p) - np.log(1 - p)]. *)
Definition prob2logit (p : F) : F :=
  fsub (flog p) (flog (fsub (of_int 1) p)).

(** [np.linspace(start, stop, num)] with the end point included: the
    samples [i * step + start] for [i < num], the last one replaced by
    [stop]; a zero step is handled apart, as numpy does. *)
Definition linspace (start stop : F) (num : nat) : list F :=
  let div := of_int (Z.of_nat (num - 1)) in
  let y := (λ i, of_int (Z.of_nat i)) <$> seq 0 num in
  let delta := fsub stop start in
  let y :=
    if decide (1 < num) then
      let step := fdiv delta div in
      if fge step (of_int 0) && fge (of_int 0) step
      then (λ v, fmul (fdiv v div) delta) <$> y
      else (λ v, fmul v step) <$> y
    else (λ v, fmul v delta) <$> y in
  let y := (λ v, fadd v start) <$> y in
  if decide (1 < num) then <[num - 1 := stop]> y else y.

(** Lines 106-111: the probabilities and the thresholds derived from the
    logits of one example. *)
Definition sample_thresholds (logits : ndarray F) (num : nat)
    : result (list F * list F) :=
  lo ← amin logits;
  let min_prob := sigmoid lo in
  hi ← amax logits;
  let max_prob := sigmoid hi in
  let probs := linspace min_prob max_prob num in
  let thresholds := prob2logit <$> probs in
  mret (probs, thresholds).

(** ** The evaluation loop *)

(** What the run prints. *)
Inductive event : Type :=
  | PrintThreshold (i : nat) (threshold prob : F)
  | PrintMetric (name : string) (value : F)
  | PrintBlank
  | PrintLoss (value : F).

(** A computation that prints and may raise: it maps the output so far to
    the output after it and its result. *)
Definition io (A : Type) : Type := list event → list event * result A.

#[local] Instance io_ret : MRet io := λ A a out, (out, Ok a).
#[local] Instance io_bind : MBind io := λ A B k m out,
  match m out with
  | (out', Ok a) => k a out'
  | (out', Err e) => (out', Err e)
  end.

Definition print (e : event) : io unit := λ out, (out ++ [e], Ok ()).
Definition lift {A} (r : result A) : io A := λ out, (out, r).

(** [l[i]] on a Python list. *)
Definition index {A} (l : list A) (i : nat) : result A :=
  match l !! i with
  | Some x => Ok x
  | None => Err IndexError
  end.

(** [np.random.randint(high)]: a draw below [high], ValueError when
    [high] is 0.  [seed] stands for the state of the random source. *)
Definition randint (seed high : nat) : result nat :=
  if decide (high = 0) then Err ValueError else Ok (seed `mod` high).

(** The module constants. *)
Definition data_dir : string := "val/".
Definition number_of_thresholds : nat := 20.
Definition metric_names : list string :=
  ["IOU"; "F1-score"; "G-mean"; "Accuracy"; "Sensitivity"; "Specificity";
   "Precision"; "Recall"].

(** The collaborators of the run: the CSV reader (the rows it yields from
    a list of lines), the image reader, the network and its loss. *)
Variable csv_reader : list string → list (list string).
Variable imread : string → result (ndarray Z).
Variable predict : ndarray Z → ndarray F.
Variable logistic_loss : ndarray Z → ndarray Z → F.

(** Lines 97-111: the loop over the rows of the drawn line; each pass
    assigns [probs] and [thresholds] anew. *)
Fixpoint sample_rows (rows : list (list string))
    (sampled : option (list F * list F)) : result (option (list F * list F)) :=
  match rows with
  | [] => Ok sampled
  | row :: rest =>
      name ← index row 0;
      im ← imread (data_dir +:+ name);
      let logits := predict im in
      s ← sample_thresholds logits number_of_thresholds;
      sample_rows rest (Some s)
  end.

(** [metric_accum += m] and [metric_accum / n] on float64 vectors. *)
Definition vec_add (u v : list F) : list F := zip_with fadd u v.
Definition vec_div (u : list F) (n : Z) : list F :=
  (λ x, fdiv x (of_int n)) <$> u.

(** Lines 122-138: the body of the loop over the examples. *)
Definition example_metrics (threshold : F) (row : list string)
    : result (list F) :=
  image_name ← index row 0;
  label_name ← index row 1;
  im ← imread (data_dir +:+ image_name);
  label ← imread (data_dir +:+ label_name);
  let logits := predict im in
  segmentation ← post logits label threshold;
  metrics segmentation label.

Fixpoint accumulate (threshold : F) (rows : list (list string))
    (metric_accum : list F) : result (list F) :=
  match rows with
  | [] => Ok metric_accum
  | row :: rest =>
      m ← example_metrics threshold row;
      accumulate threshold rest (vec_add metric_accum m)
  end.

(** Lines 117-142: the mean metrics of one threshold.  After the loop
    [csv_reader.line_num] is the number of lines read. *)
Definition mean_metrics (lines : list string) (threshold : F)
    : result (list F) :=
  let rows := csv_reader lines in
  let metric_accum := replicate 8 (of_int 0) in
  metric_accum ← accumulate threshold rows metric_accum;
  let number_of_examples := Z.of_nat (length lines) in
  mret (vec_div metric_accum number_of_examples).

Fixpoint print_metrics (named : list (string * F)) : io unit :=
  match named with
  | [] => mret ()
  | (name, metric) :: rest =>
      print (PrintMetric name metric);; print_metrics rest
  end.

(** Lines 114-149: one pass of the loop over the thresholds. *)
Definition validate (lines : list string)
    (sampled : option (list F * list F)) (i : nat) : io unit :=
  '(probs, thresholds) ← lift (from_option Ok (Err NameError) sampled);
  t ← lift (index thresholds i);
  p ← lift (index probs i);
  print (PrintThreshold i t p);;
  mean ← lift (mean_metrics lines t);
  print_metrics (zip metric_names mean);;
  print PrintBlank.

Fixpoint sweep (lines : list string) (sampled : option (list F * list F))
    (range : list nat) : io unit :=
  match range with
  | [] => mret ()
  | i :: rest => validate lines sampled i;; sweep lines sampled rest
  end.

(** Lines 155-163: the mean logistic loss. *)
Fixpoint accumulate_loss (rows : list (list string)) (loss_accum : F)
    : result F :=
  match rows with
  | [] => Ok loss_accum
  | row :: rest =>
      image_name ← index row 0;
      im ← imread (data_dir +:+ image_name);
      label_name ← index row 1;
      lbl ← imread (data_dir +:+ label_name);
      accumulate_loss rest (fadd loss_accum (logistic_loss im lbl))
  end.

(** [main()], from the lines of the manifest on; [seed] is the state of
    the random source. *)
Definition main (lines : list string) (seed : nat) : io unit :=
  rand_index ← lift (randint seed (length lines));
  rand_line ← lift (index lines rand_index);
  sampled ← lift (sample_rows (csv_reader [rand_line]) None);
  sweep lines sampled (seq 0 number_of_thresholds);;
  loss_accum ← lift (accumulate_loss (csv_reader lines) (of_int 0));
  print (PrintLoss (fdiv loss_accum (of_int (Z.of_nat (length lines))))).

End Program.

(** ** The CSV reader *)

(** Python's [csv.reader] with the default dialect (delimiter [,], quote
    character 34, doubled quotes, not strict), on the lines that
    [str.splitlines] gives: no line break inside a line, and fields below
    the size limit of the reader.  A quoted field that a line leaves open
    goes on in the next line, so a row may take several lines; an empty
    line gives a row without fields. *)
Inductive csv_state : Type :=
  | START_RECORD
  | START_FIELD
  | IN_FIELD
  | IN_QUOTED_FIELD
  | QUOTE_IN_QUOTED_FIELD.

(** The parser: its state, the field and the fields read so far. *)
Record csv_parser : Type := CsvParser {
  csv_at : csv_state;
  csv_field : string;
  csv_fields : list string
}.

Definition csv_quote : ascii := "034"%char.
Definition csv_delimiter : ascii := ","%char.

Definition csv_add_char (c : ascii) (st : csv_state) (p : csv_parser)
    : csv_parser :=
  CsvParser st (csv_field p +:+ String c EmptyString) (csv_fields p).

Definition csv_save_field (st : csv_state) (p : csv_parser) : csv_parser :=
  CsvParser st EmptyString (csv_fields p ++ [csv_field p]).

(** One character of a line. *)
Definition csv_process_char (c : ascii) (p : csv_parser) : csv_parser :=
  match csv_at p with
  | START_RECORD | START_FIELD =>
      if Ascii.eqb c csv_quote then
        CsvParser IN_QUOTED_FIELD (csv_field p) (csv_fields p)
      else if Ascii.eqb c csv_delimiter then csv_save_field START_FIELD p
      else csv_add_char c IN_FIELD p
  | IN_FIELD =>
      if Ascii.eqb c csv_delimiter then csv_save_field START_FIELD p
      else csv_add_char c IN_FIELD p
  | IN_QUOTED_FIELD =>
      if Ascii.eqb c csv_quote then
        CsvParser QUOTE_IN_QUOTED_FIELD (csv_field p) (csv_fields p)
      else csv_add_char c IN_QUOTED_FIELD p
  | QUOTE_IN_QUOTED_FIELD =>
      if Ascii.eqb c csv_quote then csv_add_char c IN_QUOTED_FIELD p
      else if Ascii.eqb c csv_delimiter then csv_save_field START_FIELD p
      else csv_add_char c IN_FIELD p
  end.

(** The end of a line. *)
Definition csv_process_eol (p : csv_parser) : csv_parser :=
  match csv_at p with
  | START_RECORD => p
  | START_FIELD | IN_FIELD | QUOTE_IN_QUOTED_FIELD =>
      csv_save_field START_RECORD p
  | IN_QUOTED_FIELD => p
  end.

Fixpoint csv_process_line (line : string) (p : csv_parser) : csv_parser :=
  match line with
  | EmptyString => csv_process_eol p
  | String c rest => csv_process_line rest (csv_process_char c p)
  end.

(** The rows read from the lines; a row is complete when a line ends
    outside a quoted field, and the lines may end inside one. *)
Fixpoint csv_rows (lines : list string) (p : csv_parser)
    : list (list string) :=
  match lines with
  | [] =>
      match csv_at p with
      | IN_QUOTED_FIELD => [csv_fields p ++ [csv_field p]]
      | _ => []
      end
  | line :: rest =>
      let p := csv_process_line line p in
      match csv_at p with
      | START_RECORD =>
          csv_fields p :: csv_rows rest (CsvParser START_RECORD EmptyString [])
      | _ => csv_rows rest p
      end
  end.

Definition py_csv_reader (lines : list string) : list (list string) :=
  csv_rows lines (CsvParser START_RECORD EmptyString []).
(** ** Reference definitions for the statements *)

(** The value [post] gives a pixel with logit [x] and label [l]. *)
Definition post_pixel {F} `{Arith F} (threshold x : F) (l : Z) : Z :=
  if (l =? 0)%Z then 0%Z else if fge x threshold then 255%Z else 127%Z.

(** The number of pixels of an array that satisfy [p]. *)
Definition count_pixels {A} (p : A → bool) (a : ndarray A) : nat :=
  length (filter (λ x, p x = true) (ravel a)).

(** The number of pixels at which segmentation and label satisfy [p]. *)
Definition count_where (p : Z → Z → bool) (segmentation label : ndarray Z)
    : nat :=
  length (filter (λ sl, p sl.1 sl.2 = true)
                 (zip (ravel segmentation) (ravel label))).

(** The metrics of the specification from the four counts of the confusion
    matrix, [epsilon] added to every denominator. *)
Definition metric_formulas {F} `{Arith F} (TP FP TN FN : Z) : list F :=
  let accuracy :=
    fdiv (of_int (TP + TN)) (fadd (of_int (TP + TN + FP + FN)) epsilon) in
  let sensitivity := fdiv (of_int TP) (fadd (of_int (TP + FN)) epsilon) in
  let specificity := fdiv (of_int TN) (fadd (of_int (FP + TN)) epsilon) in
  let precision := fdiv (of_int TP) (fadd (of_int (TP + FP)) epsilon) in
  let recall := sensitivity in
  let iou := fdiv (of_int TP) (fadd (of_int (TP + FP + FN)) epsilon) in
  let f1 :=
    fdiv (fmul (fmul (of_int 2) precision) recall)
         (fadd (fadd precision recall) epsilon) in
  let g_mean := fsqrt (fmul sensitivity specificity) in
  [iou; f1; g_mean; accuracy; sensitivity; specificity; precision; recall].

(** The metric vector as the specification words it: the formulas on the
    counts of the pixels that are true positives, false positives, true
    negatives and false negatives. *)
Definition metrics_reference {F} `{Arith F} (segmentation label : ndarray Z)
    : list F :=
  let count p := Z.of_nat (count_where p segmentation label) in
  metric_formulas
    (count (λ s l, (s =? 255) && (l =? 255))%Z)
    (count (λ s l, (s =? 255) && negb (l =? 255))%Z)
    (count (λ s l, (s =? 127) && (l =? 127))%Z)
    (count (λ s l, (s =? 127) && negb (l =? 127))%Z).

(** *** The evaluation loop *)

Section LoopReference.
Context {F : Type} `{Arith F}.
Variable imread : string → result (ndarray Z).
Variable predict : ndarray Z → ndarray F.

(** The manifest row [row] names an image and a label that load, with
    logits [logits] predicted for the image and label [label]. *)
Definition loads (row : list string) (logits : ndarray F)
    (label : ndarray Z) : Prop :=
  ∃ image_name label_name im,
    row !! 0 = Some image_name ∧ row !! 1 = Some label_name
    ∧ imread (data_dir +:+ image_name) = Ok im
    ∧ imread (data_dir +:+ label_name) = Ok label
    ∧ predict im = logits.

(** [metrics(post(logits, label, threshold), label)]. *)
Definition metrics_at (threshold : F) (logits : ndarray F)
    (label : ndarray Z) : result (list F) :=
  segmentation ← post logits label threshold; metrics segmentation label.

End LoopReference.

(** The mean as the specification words it, entry by entry: entry [j] of
    the mean of the vectors [ms] over [n] is the sum of their entries [j],
    from 0 on and in order, divided by [n]. *)
Definition column {F} `{Arith F} (j : nat) (ms : list (list F)) : list F :=
  (λ m, nth j m (of_int 0)) <$> ms.

Definition mean_of {F} `{Arith F} (ms : list (list F)) (n : Z) : list F :=
  (λ j, fdiv (foldl fadd (of_int 0) (column j ms)) (of_int n)) <$> seq 0 8.

(** A finite value between 0 and 1: neither NaN nor an infinity. *)
Definition unit_interval (x : xreal) : Prop :=
  ∃ r : R, x = Fin r ∧ (0 <= r <= 1)%R.

(** The same test on a binary64 value; it fails on NaN. *)
Definition float_unit_interval (x : float) : bool :=
  PrimFloat.leb 0%float x && PrimFloat.leb x 1%float.





(** ** Example inputs *)

(** A 2x2 example: logits, its label (one pixel outside the breast area)
    and the segmentation [post] gives it at threshold 0. *)
Definition example_logits : ndarray float :=
  NDArray (2, 2) [[0.5; -1]; [2; 0]]%float.
Definition example_label : ndarray Z :=
  NDArray (2, 2) [[255; 127]; [0; 255]]%Z.
Definition example_segmentation : ndarray Z :=
  NDArray (2, 2) [[255; 127]; [0; 255]]%Z.

(** Arrays without pixels. *)
Definition empty_array : ndarray Z := NDArray (0, 3) [].

(** A manifest of one line and stand-ins for the collaborators: a reader
    of lines without quotes (the fields between the commas), a reader of
    two image files and a network that shifts the pixel values. *)
Fixpoint split_commas (line field : string) : list string :=
  match line with
  | EmptyString => [field]
  | String c rest =>
      if Ascii.eqb c ","%char then field :: split_commas rest ""
      else split_commas rest (field +:+ String c "")
  end.

Definition example_csv_reader (lines : list string) : list (list string) :=
  (λ line, split_commas line "") <$> lines.


Definition example_image : ndarray Z := NDArray (2, 2) [[3; 1]; [4; 2]]%Z.

Definition example_imread (path : string) : result (ndarray Z) :=
  if decide (path = "val/a.png") then Ok example_image
  else if decide (path = "val/a_mask.png") then Ok example_label
  else Err IOError.

Definition example_predict (im : ndarray Z) : ndarray float :=
  amap (λ v, PrimFloat.sub (float_of_int v) 2%float) im.

(** Arrays of two shapes that do not agree. *)
Definition example_row_label : ndarray Z := NDArray (1, 2) [[255; 0]]%Z.
Definition example_wide_label : ndarray Z :=
  NDArray (2, 3) [[255; 0; 127]; [127; 0; 255]]%Z.

(** *** A clean validation set *)

Section RunReference.
Context {F : Type} `{Arith F}.
Variable imread : string → result (ndarray Z).
Variable predict : ndarray Z → ndarray F.
Variable logistic_loss : ndarray Z → ndarray Z → F.




End RunReference.

(** A manifest whose second line names a missing image, and a network in
    exact arithmetic. *)
Definition example_lines_missing : list string :=
  ["a.png,a_mask.png"; "b.png,b_mask.png"].

Definition example_xpredict (im : ndarray Z) : ndarray xreal :=
  amap (λ v, Fin (IZR v)) im.

Definition example_xloss (im lbl : ndarray Z) : xreal := Fin 0.


(** A manifest of two lines, one entry each. *)
Definition example_lines_two : list string :=
  ["a.png,a_mask.png"; "a.png,a_mask.png"].

(** A manifest of one entry whose first field is quoted and spans two
    lines: a quote and [a.png], then a quote, a comma and [a_mask.png]. *)
Definition quoted_lines : list string :=
  [String csv_quote "a.png"; String csv_quote ",a_mask.png"].

(** ** Arrays: shapes, pixels and flattening *)

Section Arrays.
Context {A B C : Type}.
Implicit Types (f : A → B → C) (a : ndarray A) (b : ndarray B).

Lemma zip_with_rows_replicate f (h w : nat) (c : A) (k : list (list B)) :
  length k = h → Forall (λ r, length r = w) k →
  zip_with (zip_with f) (replicate h (replicate w c)) k
  = fmap (M:=list) (f c) <$> k.
Proof.
  intros Hh Hw. rewrite zip_with_replicate_l by lia.
  apply Forall_fmap_ext. eapply Forall_impl; [exact Hw|].
  intros r Hr. simpl in Hr. apply zip_with_replicate_l. lia.
Qed.

Lemma pixel_zip_with f s s' s'' (l : list (list A)) (k : list (list B)) i j x y :
  pixel (NDArray s l) i j = Some x →
  pixel (NDArray s' k) i j = Some y →
  pixel (NDArray s'' (zip_with (zip_with f) l k)) i j = Some (f x y).
Proof.
  unfold pixel; simpl. intros Hx Hy.
  rewrite lookup_zip_with.
  destruct (l !! i) as [r|]; [|done]. destruct (k !! i) as [r'|]; [|done].
  simpl in *. rewrite lookup_zip_with, Hx, Hy. done.
Qed.

Lemma concat_zip_with f (l : list (list A)) (k : list (list B)) :
  Forall2 (λ r r', length r = length r') l k →
  concat (zip_with (zip_with f) l k) = zip_with f (concat l) (concat k).
Proof.
  induction 1 as [|r r' l k Hr _ IH]; [done|].
  simpl. rewrite IH. by rewrite zip_with_app.
Qed.

Lemma same_shape_rows a b :
  wf a → wf b → shape a = shape b →
  Forall2 (λ r r', length r = length r') (rows a) (rows b).
Proof.
  intros (Ha & Hra & _) (Hb & Hrb & _) Hs.
  apply Forall2_same_length_lookup_2; [congruence|].
  intros i r r' Hi Hi'.
  pose proof (proj1 (Forall_lookup _ _) Hra _ _ Hi) as Hr.
  pose proof (proj1 (Forall_lookup _ _) Hrb _ _ Hi') as Hr'.
  simpl in Hr, Hr'. congruence.
Qed.

Lemma wf_zip_with f s (l : list (list A)) (k : list (list B)) :
  wf (NDArray s l) → wf (NDArray s k) →
  wf (NDArray s (zip_with (zip_with f) l k)).
Proof.
  intros (Hl & Hrl & Hsz) (Hk & Hrk & _). simpl in *.
  split_and!; simpl; [|  |done].
  - rewrite length_zip_with. lia.
  - apply Forall_lookup. intros i r Hi.
    apply lookup_zip_with_Some in Hi as (x & y & -> & Hx & Hy).
    pose proof (proj1 (Forall_lookup _ _) Hrl _ _ Hx) as Hr.
    pose proof (proj1 (Forall_lookup _ _) Hrk _ _ Hy) as Hr'.
    simpl in Hr, Hr'. rewrite length_zip_with. lia.
Qed.

Lemma stretch_same {D} (n : nat) (l : list D) : stretch n n l = l.
Proof. unfold stretch. by rewrite decide_True. Qed.

Lemma broadcast_to_same {D} (s : nat * nat) (d : ndarray D) :
  shape d = s → broadcast_to s d = rows d.
Proof.
  intros <-. unfold broadcast_to. rewrite stretch_same.
  rewrite <- (list_fmap_id (rows d)) at 2.
  apply list_fmap_ext. intros _ r _. apply stretch_same.
Qed.

Lemma broadcast_shape_same (s : nat * nat) : broadcast_shape s s = Some s.
Proof.
  destruct s as [h w]. unfold broadcast_shape, broadcast_dim. simpl.
  by rewrite !decide_True.
Qed.

Lemma azip_same_shape f a b :
  shape a = shape b →
  azip f a b = Ok (NDArray (shape a) (zip_with (zip_with f) (rows a) (rows b))).
Proof.
  intros Hs. unfold azip. rewrite <- Hs, broadcast_shape_same.
  by rewrite !broadcast_to_same.
Qed.

End Arrays.

Lemma wf_amap {A B} (f : A → B) (a : ndarray A) : wf a → wf (amap f a).
Proof.
  intros (Hl & Hr & Hsz). split_and!; simpl; [| |done].
  - by rewrite length_fmap.
  - apply Forall_fmap. eapply Forall_impl; [exact Hr|].
    intros r Hlen. simpl. by rewrite length_fmap.
Qed.

Lemma ravel_amap {A B} (f : A → B) (a : ndarray A) :
  ravel (amap f a) = f <$> ravel a.
Proof.
  unfold ravel, amap. simpl. generalize (rows a). intros l.
  induction l as [|r l IH]; [done|].
  rewrite fmap_cons. simpl. by rewrite fmap_app, IH.
Qed.

Lemma length_concat_rect {A} (w : nat) (l : list (list A)) :
  Forall (λ r, length r = w) l → length (concat l) = length l * w.
Proof.
  induction 1 as [|r l Hlen _ IH]; [done|].
  simpl. rewrite length_app, IH, Hlen. done.
Qed.

Lemma length_ravel {A} (a : ndarray A) : wf a → length (ravel a) = size a.
Proof.
  intros (Hl & Hr & _). unfold ravel, size.
  by rewrite (length_concat_rect _ _ Hr), Hl.
Qed.

Lemma zip_with_rows_fmap {A A' B B' C} (f : A' → B' → C) (g : A → A')
    (h : B → B') (l : list (list A)) (k : list (list B)) :
  zip_with (zip_with f) (fmap (M:=list) g <$> l) (fmap (M:=list) h <$> k)
  = zip_with (zip_with (λ x y, f (g x) (h y))) l k.
Proof.
  revert k. induction l as [|r l IH]; intros [|r' k]; try done.
  rewrite !fmap_cons. simpl. rewrite IH.
  by rewrite zip_with_fmap_l, zip_with_fmap_r.
Qed.

Lemma rows_fmap_compose {A B C} (g : A → B) (h : B → C) (l : list (list A)) :
  fmap (M:=list) h <$> (fmap (M:=list) g <$> l) = fmap (M:=list) (h ∘ g) <$> l.
Proof.
  rewrite <- list_fmap_compose. apply list_fmap_ext. intros _ r _. simpl.
  by rewrite <- list_fmap_compose.
Qed.

(** ** The mask post-processor *)

Section Post.
Context {F : Type} `{Arith F}.
Implicit Types (logits : ndarray F) (label : ndarray Z) (threshold : F).

(** On arrays of one shape [post] returns the array of [post_pixel]. *)
Lemma post_rows logits label threshold :
  wf logits → wf label → shape logits = shape label →
  post logits label threshold
  = Ok (NDArray (shape logits)
          (zip_with (zip_with (post_pixel threshold))
                    (rows logits) (rows label))).
Proof.
  intros (Hl & Hr & _) _ Hs. unfold post, setmask. simpl.
  rewrite decide_True by done. simpl.
  rewrite decide_True by done. simpl.
  unfold mret, result_ret. f_equal. f_equal.
  rewrite zip_with_rows_replicate.
  - rewrite rows_fmap_compose.
    rewrite zip_with_rows_fmap. apply zip_with_ext; [|done..].
    intros r r'. apply zip_with_ext; [|done..].
    intros x l. unfold post_pixel. simpl.
    by destruct (l =? 0)%Z, (fge x threshold).
  - by rewrite length_fmap.
  - apply Forall_fmap. eapply Forall_impl; [exact Hr|].
    intros r Hlen. simpl in *. by rewrite length_fmap.
Qed.

Lemma post_pixel_values threshold x l :
  post_pixel threshold x l = 0%Z ∨ post_pixel threshold x l = 127%Z
  ∨ post_pixel threshold x l = 255%Z.
Proof.
  unfold post_pixel. destruct (l =? 0)%Z, (fge x threshold); auto.
Qed.

Lemma wf_post_rows logits label threshold :
  wf logits → wf label → shape logits = shape label →
  wf (NDArray (shape logits)
        (zip_with (zip_with (post_pixel threshold))
                  (rows logits) (rows label))).
Proof.
  intros Hl Hb Hs. apply wf_zip_with.
  - by destruct logits.
  - rewrite Hs. by destruct label.
Qed.

Lemma ravel_post_rows logits label threshold :
  wf logits → wf label → shape logits = shape label →
  ravel (NDArray (shape logits)
           (zip_with (zip_with (post_pixel threshold))
                     (rows logits) (rows label)))
  = zip_with (post_pixel threshold) (ravel logits) (ravel label).
Proof.
  intros Hl Hb Hs. unfold ravel. simpl.
  apply concat_zip_with. by apply same_shape_rows.
Qed.

(** The shapes decide whether [post] returns. *)
Lemma post_returns logits label threshold :
  shape logits = shape label → ∃ seg, post logits label threshold = Ok seg.
Proof.
  intros Hs. unfold post, setmask. simpl.
  rewrite decide_True by done. simpl.
  rewrite decide_True by done. simpl. eauto.
Qed.

End Post.

Lemma count_zip_with_mono {A B C} (P : C → Prop) `{∀ c, Decision (P c)}
    (f1 f2 : A → B → C) (l : list A) (k : list B) :
  (∀ x y, P (f2 x y) → P (f1 x y)) →
  length (filter P (zip_with f2 l k)) ≤ length (filter P (zip_with f1 l k)).
Proof.
  intros Himp. revert k. induction l as [|x l IH]; intros [|y k]; simpl; try done.
  rewrite !filter_cons. specialize (IH k).
  destruct (decide (P (f2 x y))) as [H2|H2].
  - rewrite decide_True by auto. simpl. lia.
  - destruct (decide (P (f1 x y))); simpl; lia.
Qed.

(** ** The comparison of the two arithmetics is transitive *)

Lemma SFleb_trans (a b c : SpecFloat.spec_float) :
  SpecFloat.SFleb a b = true → SpecFloat.SFleb b c = true →
  SpecFloat.SFleb a c = true.
Proof.
  unfold SpecFloat.SFleb, SpecFloat.SFcompare.
  destruct a as [[]|[]| |[] m1 e1], b as [[]|[]| |[] m2 e2],
    c as [[]|[]| |[] m3 e3]; simpl; try done;
    change (Pos.compare_cont Eq) with Pos.compare;
    repeat match goal with
      | |- context [Z.compare ?x ?y] => destruct (Z.compare_spec x y)
      end; simpl; try done; try lia;
    repeat match goal with
      | |- context [Pos.compare ?x ?y] => destruct (Pos.compare_spec x y)
      end; simpl; try done; try lia.
Qed.

#[global] Instance float_order : ArithOrder float.
Proof.
  intros x y z. simpl. rewrite !FloatAxioms.leb_spec.
  intros Hyx Hzy. by apply SFleb_trans with (FloatOps.Prim2SF y).
Qed.

#[global] Instance xreal_order : ArithOrder xreal.
Proof.
  intros [a| | |] [b| | |] [c| | |]; simpl; try done.
  rewrite !bool_decide_eq_true. lra.
Qed.

(** ** The confusion matrix *)

Lemma int64_small (z : Z) : (- 2 ^ 63 ≤ z < 2 ^ 63)%Z → int64 z = z.
Proof. intros Hz. unfold int64. rewrite Z.mod_small; lia. Qed.

Lemma foldl_add64_count (l : list bool) (n : nat) :
  (Z.of_nat (n + length l) ≤ max_size)%Z →
  foldl (λ acc (b : bool), add64 acc (if b then 1 else 0)) (Z.of_nat n) l
  = Z.of_nat (n + length (filter (λ b, b = true) l)).
Proof.
  revert n. induction l as [|b l IH]; intros n Hn; simpl.
  { f_equal. lia. }
  simpl in Hn. unfold max_size in *. rewrite filter_cons. destruct b; simpl.
  - unfold add64. rewrite int64_small by lia.
    replace (Z.of_nat n + 1)%Z with (Z.of_nat (S n)) by lia.
    rewrite IH by lia. f_equal. lia.
  - unfold add64. rewrite int64_small by lia.
    rewrite Z.add_0_r. rewrite IH by lia. done.
Qed.

(** Within the size of an array [np.sum] counts without wrapping. *)
Lemma np_sum_count (a : ndarray bool) :
  (Z.of_nat (length (ravel a)) ≤ max_size)%Z →
  np_sum a = Z.of_nat (length (filter (λ b, b = true) (ravel a))).
Proof.
  intros Ha. unfold np_sum. by rewrite (foldl_add64_count _ 0).
Qed.

Lemma filter_zip_with_true {A B} (g : A → B → bool) (l : list A) (k : list B) :
  length (filter (λ b, b = true) (zip_with g l k))
  = length (filter (λ p, g p.1 p.2 = true) (zip l k)).
Proof.
  revert k. induction l as [|x l IH]; intros [|y k]; simpl; try done.
  rewrite !filter_cons. simpl. specialize (IH k).
  destruct (decide (g x y = true)); simpl; by rewrite IH.
Qed.

Section Counts.
Implicit Types (segmentation label : ndarray Z).

Lemma count_and_where (s : Z) (on_label : Z → bool) segmentation label :
  wf segmentation → wf label → shape segmentation = shape label →
  count_and s on_label segmentation label
  = Ok (Z.of_nat (count_where (λ x l, (x =? s)%Z && on_label l)
                              segmentation label)).
Proof.
  intros Hs Hl Hshape. unfold count_and, logical_and.
  rewrite azip_same_shape by done. simpl.
  unfold mret, result_ret. f_equal.
  rewrite zip_with_rows_fmap.
  assert (ravel (NDArray (shape segmentation)
            (zip_with (zip_with (λ x y, (x =? s)%Z && on_label y))
                      (rows segmentation) (rows label)))
          = zip_with (λ x y, (x =? s)%Z && on_label y)
                     (ravel segmentation) (ravel label)) as Hravel.
  { unfold ravel. simpl. apply concat_zip_with. by apply same_shape_rows. }
  rewrite np_sum_count; rewrite Hravel.
  - by rewrite filter_zip_with_true.
  - rewrite length_zip_with, (length_ravel _ Hs).
    destruct Hs as (_ & _ & Hsz). lia.
Qed.

(** A pixel pair is counted by [p && q] or by [p && not q], never both. *)
Lemma count_where_split (p q : Z → bool) segmentation label :
  wf segmentation → wf label → shape segmentation = shape label →
  count_where (λ x l, p x && q l) segmentation label
  + count_where (λ x l, p x && negb (q l)) segmentation label
  = count_pixels p segmentation.
Proof.
  intros Hs Hl Hshape. unfold count_where, count_pixels.
  assert (length (ravel segmentation) = length (ravel label)) as Hlen.
  { rewrite !length_ravel by done. unfold size. by rewrite Hshape. }
  revert Hlen. generalize (ravel segmentation) (ravel label).
  intros l. induction l as [|x l IH]; intros [|y k] Hlen; simpl in *; try done.
  rewrite !filter_cons. simpl. specialize (IH k ltac:(lia)).
  destruct (p x), (q y); simpl;
    repeat match goal with
      | |- context [decide ?P] => destruct (decide P); try done
      end; simpl; lia.
Qed.

(** Pixels satisfying one of two exclusive tests, and the rest. *)
Lemma count_pixels_partition (p q : Z → bool) segmentation :
  (∀ x, p x = true → q x = false) →
  count_pixels p segmentation + count_pixels q segmentation
  + count_pixels (λ v, negb (p v) && negb (q v)) segmentation
  = length (ravel segmentation).
Proof.
  intros Hpq. unfold count_pixels.
  induction (ravel segmentation) as [|x l IH]; simpl; [done|].
  rewrite !filter_cons. specialize (Hpq x).
  destruct (p x), (q x); simpl;
    repeat match goal with
      | |- context [decide ?P] => destruct (decide P); try done
      end; simpl; lia.
Qed.

End Counts.

Lemma add64_nat (a b : nat) :
  (Z.of_nat (a + b) ≤ max_size)%Z →
  add64 (Z.of_nat a) (Z.of_nat b) = Z.of_nat (a + b).
Proof.
  unfold max_size. intros Hab. unfold add64. rewrite int64_small by lia. lia.
Qed.

(** The four counts of [metrics], as numbers of pixels: each segmentation
    pixel equal to 255 is a true or a false positive, each equal to 127 a
    true or a false negative, and the others are not counted. *)
Lemma confusion_counts (segmentation label : ndarray Z) :
  wf segmentation → wf label → shape segmentation = shape label →
  ∃ tp fp tn fn : nat,
    true_positives segmentation label = Ok (Z.of_nat tp)
    ∧ false_positives segmentation label = Ok (Z.of_nat fp)
    ∧ true_negatives segmentation label = Ok (Z.of_nat tn)
    ∧ false_negatives segmentation label = Ok (Z.of_nat fn)
    ∧ tp = count_where (λ s l, (s =? 255) && (l =? 255))%Z segmentation label
    ∧ fp = count_where (λ s l, (s =? 255) && negb (l =? 255))%Z segmentation label
    ∧ tn = count_where (λ s l, (s =? 127) && (l =? 127))%Z segmentation label
    ∧ fn = count_where (λ s l, (s =? 127) && negb (l =? 127))%Z segmentation label
    ∧ tp + fp = count_pixels (λ v, v =? 255)%Z segmentation
    ∧ tn + fn = count_pixels (λ v, v =? 127)%Z segmentation
    ∧ tp + fp + tn + fn
      + count_pixels (λ v, negb (v =? 255) && negb (v =? 127))%Z segmentation
      = size segmentation.
Proof.
  intros Hs Hl Hshape. do 4 eexists.
  unfold true_positives, false_positives, true_negatives, false_negatives.
  rewrite !count_and_where by done.
  split_and!; try reflexivity.
  - by apply (count_where_split (λ v, v =? 255)%Z (λ l, l =? 255)%Z).
  - by apply (count_where_split (λ v, v =? 127)%Z (λ l, l =? 127)%Z).
  - pose proof (count_where_split (λ v, v =? 255)%Z (λ l, l =? 255)%Z
                  _ _ Hs Hl Hshape) as H255.
    pose proof (count_where_split (λ v, v =? 127)%Z (λ l, l =? 127)%Z
                  _ _ Hs Hl Hshape) as H127.
    pose proof (count_pixels_partition (λ v, v =? 255)%Z (λ v, v =? 127)%Z
                  segmentation) as Hall.
    rewrite (length_ravel _ Hs) in Hall. simpl in *.
    rewrite <- Hall; [lia|].
    intros x Hx. apply Z.eqb_eq in Hx as ->. done.
Qed.

(** [metrics] computes the formulas on its four counts; int64 addition
    does not wrap, the counts being disjoint parts of the pixels. *)
Lemma metrics_of_counts {F : Type} `{Arith F} (segmentation label : ndarray Z) :
  wf segmentation → wf label → shape segmentation = shape label →
  ∃ tp fp tn fn : nat,
    metrics (F:=F) segmentation label
    = Ok (metric_formulas (Z.of_nat tp) (Z.of_nat fp) (Z.of_nat tn)
                          (Z.of_nat fn))
    ∧ tp = count_where (λ s l, (s =? 255) && (l =? 255))%Z segmentation label
    ∧ fp = count_where (λ s l, (s =? 255) && negb (l =? 255))%Z segmentation label
    ∧ tn = count_where (λ s l, (s =? 127) && (l =? 127))%Z segmentation label
    ∧ fn = count_where (λ s l, (s =? 127) && negb (l =? 127))%Z segmentation label
    ∧ tp + fp + tn + fn ≤ size segmentation.
Proof.
  intros Hs Hl Hshape.
  destruct (confusion_counts segmentation label Hs Hl Hshape)
    as (tp & fp & tn & fn & Htp & Hfp & Htn & Hfn & Etp & Efp & Etn & Efn
        & _ & _ & Hall).
  exists tp, fp, tn, fn. split_and!; [|done..|lia].
  assert (Z.of_nat (tp + fp + tn + fn) ≤ max_size)%Z as Hmax.
  { destruct Hs as (_ & _ & Hsz). lia. }
  unfold metrics. rewrite Htp, Hfp, Htn, Hfn. simpl.
  unfold metric_formulas. cbv zeta.
  rewrite <- !Nat2Z.inj_add.
  rewrite !add64_nat by lia.
  reflexivity.
Qed.

(** ** Bounds of the metrics in exact arithmetic *)

Section Bounds.
Local Open Scope R_scope.

Lemma ratio_bounds (a n : R) :
  0 <= a <= n → 0 < n + 1e-7 ∧ 0 <= a / (n + 1e-7) <= 1.
Proof.
  intros Ha. assert (0 < n + 1e-7) as Hd by lra. split; [done|].
  pose proof (Rinv_0_lt_compat _ Hd) as Hinv.
  assert ((n + 1e-7) * / (n + 1e-7) = 1) as Hone by (apply Rinv_r; lra).
  unfold Rdiv. nra.
Qed.

(** A count over a count that is at least as large, epsilon added. *)
Lemma xratio_unit (a n : nat) :
  (a ≤ n)%nat →
  unit_interval (fdiv (of_int (Z.of_nat a))
                      (fadd (of_int (Z.of_nat n)) epsilon)).
Proof.
  intros Han. simpl.
  assert (0 <= IZR (Z.of_nat a) <= IZR (Z.of_nat n)) as Ha.
  { split; [apply IZR_le; lia|apply IZR_le; lia]. }
  destruct (ratio_bounds _ _ Ha) as [Hd Hb].
  destruct (Req_dec_T (IZR (Z.of_nat n) + 1e-7) 0) as [Hz|_]; [lra|].
  eexists. split; [reflexivity|exact Hb].
Qed.

Lemma xf1_unit (p r : xreal) :
  unit_interval p → unit_interval r →
  unit_interval (fdiv (fmul (fmul (of_int 2) p) r)
                      (fadd (fadd p r) epsilon)).
Proof.
  intros (a & -> & Ha) (b & -> & Hb). simpl.
  destruct (Req_dec_T (a + b + 1e-7) 0) as [Hz|_]; [lra|].
  eexists. split; [reflexivity|].
  assert (0 < a + b + 1e-7) as Hd by lra.
  pose proof (Rinv_0_lt_compat _ Hd) as Hinv.
  assert ((a + b + 1e-7) * / (a + b + 1e-7) = 1) as Hone
    by (apply Rinv_r; lra).
  unfold Rdiv. split; [apply Rle_mult_inv_pos; nra|].
  assert (2 * a * b <= a + b + 1e-7) as Hnum by nra.
  nra.
Qed.

Lemma xgmean_unit (s c : xreal) :
  unit_interval s → unit_interval c → unit_interval (fsqrt (fmul s c)).
Proof.
  intros (a & -> & Ha) (b & -> & Hb). simpl.
  destruct (Rlt_dec (a * b) 0) as [Hneg|_]; [nra|].
  eexists. split; [reflexivity|]. split; [apply sqrt_pos|].
  rewrite <- sqrt_1. apply sqrt_le_1_alt. nra.
Qed.

(** Every metric of disjoint counts is finite and lies in [0, 1]. *)
Lemma metric_formulas_unit (tp fp tn fn : nat) :
  Forall unit_interval
    (metric_formulas (F:=xreal) (Z.of_nat tp) (Z.of_nat fp) (Z.of_nat tn)
                     (Z.of_nat fn)).
Proof.
  unfold metric_formulas. cbv zeta. rewrite <- !Nat2Z.inj_add.
  assert (unit_interval
            (fdiv (of_int (Z.of_nat tp))
                  (fadd (of_int (Z.of_nat (tp + fn)%nat)) epsilon)))
    as Hsens by (apply xratio_unit; lia).
  assert (unit_interval
            (fdiv (of_int (Z.of_nat tn))
                  (fadd (of_int (Z.of_nat (fp + tn)%nat)) epsilon)))
    as Hspec by (apply xratio_unit; lia).
  assert (unit_interval
            (fdiv (of_int (Z.of_nat tp))
                  (fadd (of_int (Z.of_nat (tp + fp)%nat)) epsilon)))
    as Hprec by (apply xratio_unit; lia).
  repeat apply Forall_cons_2; try done.
  - apply xratio_unit. lia.
  - by apply xf1_unit.
  - by apply xgmean_unit.
  - apply xratio_unit. lia.
Qed.

Lemma xratio_zero (n : Z) :
  (0 ≤ n)%Z → fdiv (of_int 0) (fadd (of_int n) epsilon) = Fin 0.
Proof.
  intros Hn. simpl. apply IZR_le in Hn.
  destruct (Req_dec_T (IZR n + 1e-7) 0) as [Hz|_]; [lra|].
  f_equal. apply Rdiv_0_l.
Qed.

Lemma metric_formulas_zero_xreal :
  metric_formulas (F:=xreal) 0 0 0 0 = replicate 8 (Fin 0).
Proof.
  unfold metric_formulas. cbv zeta. rewrite !Z.add_0_l.
  rewrite !xratio_zero by lia. simpl.
  destruct (Req_dec_T (0 + 0 + 1e-7) 0) as [Hz|_]; [lra|].
  destruct (Rlt_dec (0 * 0) 0) as [Hneg|_]; [lra|].
  replace (2 * 0 * 0 / (0 + 0 + 1e-7)) with 0 by (field; lra).
  replace (0 * 0) with 0 by lra. rewrite sqrt_0. reflexivity.
Qed.

End Bounds.

Lemma metric_formulas_zero_float :
  metric_formulas (F:=float) 0 0 0 0 = replicate 8 0%float.
Proof. vm_compute. reflexivity. Qed.

(** ** The evaluation loop *)

Section Loop.
Context {F : Type} `{Arith F}.
Variable csv_reader : list string → list (list string).
Variable imread : string → result (ndarray Z).
Variable predict : ndarray Z → ndarray F.

Lemma example_metrics_loads threshold row logits label :
  loads imread predict row logits label →
  example_metrics imread predict threshold row
  = metrics_at threshold logits label.
Proof.
  intros (image_name & label_name & im & H0 & H1 & Him & Hlabel & <-).
  unfold example_metrics, index. rewrite H0, H1. simpl.
  rewrite Him. simpl. rewrite Hlabel. done.
Qed.

Lemma accumulate_foldl threshold rows (ms : list (list F)) metric_accum :
  Forall2 (λ row m, example_metrics imread predict threshold row = Ok m)
          rows ms →
  accumulate imread predict threshold rows metric_accum
  = Ok (foldl vec_add metric_accum ms).
Proof.
  intros Hrows. revert metric_accum.
  induction Hrows as [|row m rows ms Hm _ IH]; intros metric_accum; [done|].
  simpl. rewrite Hm. simpl. apply IH.
Qed.

Lemma print_metrics_output (named : list (string * F)) (out : list (event (F:=F))) :
  print_metrics named out
  = (out ++ ((λ nm, PrintMetric nm.1 nm.2) <$> named), Ok ()).
Proof.
  revert out. induction named as [|[name metric] named IH]; intros out; simpl.
  { by rewrite app_nil_r. }
  unfold mbind, io_bind, print. rewrite IH. by rewrite <- app_assoc.
Qed.

Lemma validate_output lines (probs thresholds : list F) i t p
    (mean : list F) (out : list (event (F:=F))) :
  thresholds !! i = Some t → probs !! i = Some p →
  mean_metrics csv_reader imread predict lines t = Ok mean →
  validate csv_reader imread predict lines (Some (probs, thresholds)) i out
  = (out ++ PrintThreshold i t p
         :: zip_with PrintMetric metric_names mean ++ [PrintBlank],
     Ok ()).
Proof.
  intros Ht Hp Hmean.
  unfold validate, mbind, io_bind, lift, print, index.
  cbn [from_option]. rewrite Ht, Hp, Hmean, print_metrics_output.
  f_equal. rewrite <- !app_assoc. f_equal. cbn [app]. f_equal. f_equal.
  rewrite (zip_with_zip PrintMetric). apply list_fmap_ext.
  by intros _ [name metric] _.
Qed.

End Loop.

(** ** The threshold sampler in exact arithmetic *)

Section Sampler.
Local Open Scope R_scope.



















End Sampler.

(** ** Properties of [post] *)

Lemma wf_example_logits : wf example_logits.
Proof. split_and!; [done|by repeat constructor|by vm_compute]. Qed.

Lemma wf_example_label : wf example_label.
Proof. split_and!; [done|by repeat constructor|by vm_compute]. Qed.

Example post_example :
  post example_logits example_label 0%float = Ok example_segmentation.
Proof. reflexivity. Qed.

Section PostProperties.
Context {F : Type} `{Arith F}.
Implicit Types (logits : ndarray F) (label : ndarray Z) (threshold : F).

(** C1: on a logits array and a label array of one shape, [post] returns
    an array of that shape whose every pixel is 0 where the label is 0,
    and elsewhere 255 where the logit is [>=] the threshold and 127
    otherwise. *)
Theorem post_pixelwise logits label threshold :
  wf logits → wf label → shape logits = shape label →
  ∃ seg, post logits label threshold = Ok seg
    ∧ wf seg ∧ shape seg = shape label
    ∧ ∀ i j x l,
        pixel logits i j = Some x → pixel label i j = Some l →
        pixel seg i j =
          Some (if (l =? 0)%Z then 0
                else if fge x threshold then 255 else 127)%Z.
Proof.
  intros Hl Hb Hs. eexists. split; [by apply post_rows|].
  split; [by apply wf_post_rows|]. split; [done|].
  intros i j x l Hx Hy.
  destruct logits as [s r], label as [s' r']. simpl in *.
  by rewrite (pixel_zip_with (post_pixel threshold) _ _ _ _ _ _ _ _ _ Hx Hy).
Qed.

(** C3: every pixel of an array that [post] returns is 0, 127 or 255,
    and [post] returns an array whenever the shapes agree. *)
Theorem post_three_valued logits label threshold :
  shape logits = shape label →
  ∃ seg, post logits label threshold = Ok seg
    ∧ Forall (λ v, v = 0 ∨ v = 127 ∨ v = 255)%Z (ravel seg).
Proof.
  intros Hs. unfold post, setmask. simpl.
  rewrite decide_True by done. simpl.
  rewrite decide_True by done. simpl.
  eexists. split; [done|]. unfold ravel. simpl.
  apply Forall_concat, Forall_lookup. intros i r Hr.
  apply lookup_zip_with_Some in Hr as (r1 & m1 & -> & Hr1 & _).
  apply lookup_zip_with_Some in Hr1 as (r0 & m0 & -> & Hr0 & _).
  apply lookup_replicate in Hr0 as [-> _].
  apply Forall_lookup. intros j v Hv.
  apply lookup_zip_with_Some in Hv as (v1 & b1 & -> & Hv1 & _).
  apply lookup_zip_with_Some in Hv1 as (v0 & b0 & -> & Hv0 & _).
  apply lookup_replicate in Hv0 as [-> _].
  destruct b1, b0; auto.
Qed.

(** C5: for thresholds [t1 <= t2] the number of pixels that [post] sets
    to 255 at [t2] is at most the number it sets to 255 at [t1]. *)
Theorem post_count_monotone `{!ArithOrder F} logits label (t1 t2 : F) :
  wf logits → wf label → shape logits = shape label →
  fge t2 t1 = true →
  ∃ seg1 seg2,
    post logits label t1 = Ok seg1 ∧ post logits label t2 = Ok seg2
    ∧ count_pixels (λ v, v =? 255)%Z seg2
      ≤ count_pixels (λ v, v =? 255)%Z seg1.
Proof.
  intros Hl Hb Hs Ht. do 2 eexists.
  split; [by apply post_rows|]. split; [by apply post_rows|].
  unfold count_pixels. rewrite !ravel_post_rows by done.
  apply count_zip_with_mono. intros x l. unfold post_pixel.
  destruct (l =? 0)%Z; [done|].
  destruct (fge x t2) eqn:Hx; [|done].
  by rewrite (fge_trans x t2 t1).
Qed.

End PostProperties.

Lemma post_pixelwise_witness :
  wf example_logits ∧ wf example_label
  ∧ shape example_logits = shape example_label
  ∧ ∃ seg, post example_logits example_label 0%float = Ok seg
      ∧ wf seg ∧ shape seg = shape example_label
      ∧ ∀ i j x l,
          pixel example_logits i j = Some x → pixel example_label i j = Some l →
          pixel seg i j =
            Some (if (l =? 0)%Z then 0
                  else if fge x 0%float then 255 else 127)%Z.
Proof.
  split; [exact wf_example_logits|]. split; [exact wf_example_label|].
  split; [reflexivity|].
  apply (post_pixelwise example_logits example_label 0%float);
    [exact wf_example_logits|exact wf_example_label|reflexivity].
Defined.

Lemma post_three_valued_witness :
  shape example_logits = shape example_label
  ∧ ∃ seg, post example_logits example_label 0%float = Ok seg
      ∧ Forall (λ v, v = 0 ∨ v = 127 ∨ v = 255)%Z (ravel seg).
Proof.
  split; [reflexivity|].
  apply (post_three_valued example_logits example_label 0%float). reflexivity.
Defined.

Lemma post_count_monotone_witness :
  wf example_logits ∧ wf example_label
  ∧ shape example_logits = shape example_label
  ∧ fge 1%float 0%float = true
  ∧ ∃ seg1 seg2,
      post example_logits example_label 0%float = Ok seg1
      ∧ post example_logits example_label 1%float = Ok seg2
      ∧ count_pixels (λ v, v =? 255)%Z seg2
        ≤ count_pixels (λ v, v =? 255)%Z seg1.
Proof.
  split; [exact wf_example_logits|]. split; [exact wf_example_label|].
  split; [reflexivity|]. split; [reflexivity|].
  apply (post_count_monotone example_logits example_label 0%float 1%float);
    [exact wf_example_logits|exact wf_example_label|reflexivity|reflexivity].
Defined.

(** ** Properties of [metrics] *)

Lemma wf_example_segmentation : wf example_segmentation.
Proof. split_and!; [done|by repeat constructor|by vm_compute]. Qed.

(** C9: the confusion counts of [metrics] are disjoint: true and false
    positives together are the segmentation pixels equal to 255, true and
    false negatives together those equal to 127, so the four counts sum to
    at most the number of pixels, and a pixel whose segmentation is neither
    255 nor 127 is in no count. *)
Theorem confusion_counts_disjoint (segmentation label : ndarray Z) :
  wf segmentation → wf label → shape segmentation = shape label →
  ∃ tp fp tn fn : Z,
    true_positives segmentation label = Ok tp
    ∧ false_positives segmentation label = Ok fp
    ∧ true_negatives segmentation label = Ok tn
    ∧ false_negatives segmentation label = Ok fn
    ∧ (0 ≤ tp ∧ 0 ≤ fp ∧ 0 ≤ tn ∧ 0 ≤ fn)%Z
    ∧ (tp + fp)%Z = Z.of_nat (count_pixels (λ v, v =? 255)%Z segmentation)
    ∧ (tn + fn)%Z = Z.of_nat (count_pixels (λ v, v =? 127)%Z segmentation)
    ∧ (tp + fp + tn + fn ≤ Z.of_nat (size segmentation))%Z
    ∧ (tp + fp + tn + fn)%Z
      = (Z.of_nat (size segmentation)
         - Z.of_nat (count_pixels (λ v, negb (v =? 255) && negb (v =? 127))%Z
                                  segmentation))%Z.
Proof.
  intros Hs Hl Hshape.
  destruct (confusion_counts segmentation label Hs Hl Hshape)
    as (tp & fp & tn & fn & Htp & Hfp & Htn & Hfn & _ & _ & _ & _
        & Hpos & Hneg & Hall).
  exists (Z.of_nat tp), (Z.of_nat fp), (Z.of_nat tn), (Z.of_nat fn).
  split_and!; try done; lia.
Qed.

Lemma confusion_counts_disjoint_witness :
  wf example_segmentation ∧ wf example_label
  ∧ shape example_segmentation = shape example_label
  ∧ ∃ tp fp tn fn : Z,
    true_positives example_segmentation example_label = Ok tp
    ∧ false_positives example_segmentation example_label = Ok fp
    ∧ true_negatives example_segmentation example_label = Ok tn
    ∧ false_negatives example_segmentation example_label = Ok fn
    ∧ (0 ≤ tp ∧ 0 ≤ fp ∧ 0 ≤ tn ∧ 0 ≤ fn)%Z
    ∧ (tp + fp)%Z
      = Z.of_nat (count_pixels (λ v, v =? 255)%Z example_segmentation)
    ∧ (tn + fn)%Z
      = Z.of_nat (count_pixels (λ v, v =? 127)%Z example_segmentation)
    ∧ (tp + fp + tn + fn ≤ Z.of_nat (size example_segmentation))%Z
    ∧ (tp + fp + tn + fn)%Z
      = (Z.of_nat (size example_segmentation)
         - Z.of_nat (count_pixels (λ v, negb (v =? 255) && negb (v =? 127))%Z
                                  example_segmentation))%Z.
Proof.
  split; [exact wf_example_segmentation|]. split; [exact wf_example_label|].
  split; [reflexivity|].
  apply (confusion_counts_disjoint example_segmentation example_label);
    [exact wf_example_segmentation|exact wf_example_label|reflexivity].
Defined.

(** C2: [metrics] returns the vector of the reference definition: TP, FP,
    TN and FN counted as the specification says, epsilon added to every
    denominator, in the order iou, f1, g_mean, accuracy, sensitivity,
    specificity, precision, recall, the last equal to sensitivity. *)
Theorem metrics_meets_reference {F : Type} `{Arith F}
    (segmentation label : ndarray Z) :
  wf segmentation → wf label → shape segmentation = shape label →
  metrics (F:=F) segmentation label
  = Ok (metrics_reference segmentation label).
Proof.
  intros Hs Hl Hshape.
  destruct (metrics_of_counts (F:=F) segmentation label Hs Hl Hshape)
    as (tp & fp & tn & fn & -> & -> & -> & -> & -> & _).
  reflexivity.
Qed.

Lemma metrics_meets_reference_witness :
  wf example_segmentation ∧ wf example_label
  ∧ shape example_segmentation = shape example_label
  ∧ metrics (F:=float) example_segmentation example_label
    = Ok (metrics_reference example_segmentation example_label).
Proof.
  split; [exact wf_example_segmentation|]. split; [exact wf_example_label|].
  split; [reflexivity|].
  apply (metrics_meets_reference example_segmentation example_label);
    [exact wf_example_segmentation|exact wf_example_label|reflexivity].
Defined.

(** In binary64 arithmetic, on an all-background and on an all-foreground
    example, every metric is a number between 0 and 1. *)
Example metrics_all_background_float :
  (forallb float_unit_interval
     <$> metrics (F:=float) (full (2, 2) 127%Z) (full (2, 2) 127%Z))
  = Ok true.
Proof. vm_compute. reflexivity. Qed.

Example metrics_all_foreground_float :
  (forallb float_unit_interval
     <$> metrics (F:=float) (full (2, 2) 255%Z) (full (2, 2) 255%Z))
  = Ok true.
Proof. vm_compute. reflexivity. Qed.

(** C4: in exact arithmetic every entry of the vector [metrics] returns is
    a finite number between 0 and 1, never NaN or an infinity: with
    epsilon added no denominator is zero, whatever counts are zero. *)
Theorem metrics_finite_bounded (segmentation label : ndarray Z) :
  wf segmentation → wf label → shape segmentation = shape label →
  ∃ v : list xreal,
    metrics segmentation label = Ok v
    ∧ length v = 8
    ∧ Forall unit_interval v.
Proof.
  intros Hs Hl Hshape.
  destruct (metrics_of_counts (F:=xreal) segmentation label Hs Hl Hshape)
    as (tp & fp & tn & fn & -> & _).
  eexists. split; [reflexivity|]. split; [reflexivity|].
  apply metric_formulas_unit.
Qed.

Lemma metrics_finite_bounded_witness :
  wf example_segmentation ∧ wf example_label
  ∧ shape example_segmentation = shape example_label
  ∧ ∃ v : list xreal,
      metrics example_segmentation example_label = Ok v
      ∧ length v = 8
      ∧ Forall unit_interval v.
Proof.
  split; [exact wf_example_segmentation|]. split; [exact wf_example_label|].
  split; [reflexivity|].
  apply (metrics_finite_bounded example_segmentation example_label);
    [exact wf_example_segmentation|exact wf_example_label|reflexivity].
Defined.

Lemma wf_empty_array : wf empty_array.
Proof. split_and!; [done|by repeat constructor|by vm_compute]. Qed.

(** C10: on arrays without pixels the four confusion counts are 0 and
    [metrics] returns the vector of eight zeros, in binary64 arithmetic as
    in exact arithmetic. *)
Theorem metrics_empty (segmentation label : ndarray Z) :
  wf segmentation → wf label → shape segmentation = shape label →
  size segmentation = 0 →
  true_positives segmentation label = Ok 0%Z
  ∧ false_positives segmentation label = Ok 0%Z
  ∧ true_negatives segmentation label = Ok 0%Z
  ∧ false_negatives segmentation label = Ok 0%Z
  ∧ metrics (F:=float) segmentation label = Ok (replicate 8 0%float)
  ∧ metrics (F:=xreal) segmentation label = Ok (replicate 8 (Fin 0)).
Proof.
  intros Hs Hl Hshape Hsize.
  destruct (confusion_counts segmentation label Hs Hl Hshape)
    as (tp & fp & tn & fn & Htp & Hfp & Htn & Hfn & _ & _ & _ & _
        & _ & _ & Hall).
  assert (tp = 0 ∧ fp = 0 ∧ tn = 0 ∧ fn = 0) as (-> & -> & -> & ->) by lia.
  split_and!; try done.
  - unfold metrics. rewrite Htp, Hfp, Htn, Hfn. vm_compute. reflexivity.
  - destruct (metrics_of_counts (F:=xreal) segmentation label Hs Hl Hshape)
      as (tp & fp & tn & fn & -> & _ & _ & _ & _ & Hle).
    assert (tp = 0 ∧ fp = 0 ∧ tn = 0 ∧ fn = 0) as (-> & -> & -> & ->) by lia.
    f_equal. apply metric_formulas_zero_xreal.
Qed.

Lemma metrics_empty_witness :
  wf empty_array ∧ shape empty_array = shape empty_array
  ∧ size empty_array = 0
  ∧ true_positives empty_array empty_array = Ok 0%Z
  ∧ false_positives empty_array empty_array = Ok 0%Z
  ∧ true_negatives empty_array empty_array = Ok 0%Z
  ∧ false_negatives empty_array empty_array = Ok 0%Z
  ∧ metrics (F:=float) empty_array empty_array = Ok (replicate 8 0%float)
  ∧ metrics (F:=xreal) empty_array empty_array = Ok (replicate 8 (Fin 0)).
Proof.
  split; [exact wf_empty_array|]. split; [reflexivity|].
  split; [reflexivity|].
  apply (metrics_empty empty_array empty_array);
    [exact wf_empty_array|exact wf_empty_array|reflexivity|reflexivity].
Defined.

(** ** Properties of the evaluation loop *)

Section LoopProperties.
Context {F : Type} `{Arith F}.
Variable csv_reader : list string → list (list string).
Variable imread : string → result (ndarray Z).
Variable predict : ndarray Z → ndarray F.

(** C8: on a manifest without lines the random draw raises ValueError
    and the run stops there, having printed nothing; on a manifest with
    a line the draw returns the index of one of its lines. *)
Theorem main_empty_manifest `{Transcendental F}
    (logistic_loss : ndarray Z → ndarray Z → F) (seed : nat)
    (out : list (event (F:=F))) :
  randint seed (length (@nil string)) = Err ValueError
  ∧ main csv_reader imread predict logistic_loss [] seed out
    = (out, Err ValueError)
  ∧ ∀ (line : string) (lines : list string),
      ∃ (rand_index : nat) (rand_line : string),
        randint seed (length (line :: lines)) = Ok rand_index
        ∧ index (line :: lines) rand_index = Ok rand_line.
Proof.
  split; [done|]. split; [done|].
  intros line lines. unfold randint, index.
  rewrite decide_False by done.
  assert (seed `mod` length (line :: lines) < length (line :: lines)) as Hlt
    by (apply Nat.mod_upper_bound; done).
  destruct (lookup_lt_is_Some_2 _ _ Hlt) as [rand_line Hline].
  exists (seed `mod` length (line :: lines)), rand_line.
  by rewrite Hline.
Qed.

End LoopProperties.

(** C7: the mean is the accumulated sum divided by the number of lines
    read, [csv_reader.line_num], which the code takes for the number of
    examples.  On the manifest [quoted_lines] the reader gives one entry
    out of two lines; its image and label load and its metric vector is
    [m]; the loop adds [m] to the zero vector once and divides by 2: the
    reported mean is half of [m] in every entry, where the mean of the one
    entry processed is [m] itself. *)
Theorem mean_divides_by_lines_read :
  ∃ m : list float,
    py_csv_reader quoted_lines = [["a.png"; "a_mask.png"]]
    ∧ length quoted_lines = 2
    ∧ loads example_imread example_predict ["a.png"; "a_mask.png"]
            (example_predict example_image) example_label
    ∧ metrics_at 0%float (example_predict example_image) example_label = Ok m
    ∧ m = metric_formulas 2 0 1 0
    ∧ mean_metrics py_csv_reader example_imread example_predict
                   quoted_lines 0%float
      = Ok (mean_of [m] 2)
    ∧ mean_of [m] 1 = m
    ∧ mean_of [m] 2 = (λ x, x / 2)%float <$> m
    ∧ Forall2 (λ x y, (x <? y)%float = true) (mean_of [m] 2) (mean_of [m] 1)
    ∧ validate py_csv_reader example_imread example_predict quoted_lines
               (Some ([0.5%float], [0%float])) 0 []
      = (PrintThreshold 0 0%float 0.5%float
           :: zip_with PrintMetric metric_names (mean_of [m] 2)
           ++ [PrintBlank],
         Ok ()).
Proof.
  exists (metric_formulas 2 0 1 0).
  split; [reflexivity|]. split; [reflexivity|].
  split.
  { exists "a.png", "a_mask.png", example_image. repeat split; reflexivity. }
  split; [by vm_compute|]. split; [reflexivity|].
  split; [by vm_compute|]. split; [by vm_compute|]. split; [by vm_compute|].
  split.
  { vm_compute. repeat (apply Forall2_cons; split; [reflexivity|]).
    apply Forall2_nil_2. }
  by vm_compute.
Qed.

(** ** Properties of the threshold sampler *)



(** ** Further properties of [post] and [metrics] *)

Lemma wf_example_wide_label : wf example_wide_label.
Proof. split_and!; [done|by repeat constructor|by vm_compute]. Qed.

(** A count over pixel pairs whose test looks at the second pixel only. *)
Lemma filter_zip_snd {A B} (q : B → bool) (l : list A) (k : list B) :
  length l = length k →
  length (filter (λ p : A * B, q p.2 = true) (zip l k))
  = length (filter (λ y, q y = true) k).
Proof.
  revert k. induction l as [|x l IH]; intros [|y k] Hlen; simpl in *; try done.
  rewrite !filter_cons. simpl. specialize (IH k ltac:(lia)).
  destruct (decide (q y = true)); simpl; by rewrite IH.
Qed.

(** Two counts add up to a third when their tests do at every element. *)
Lemma filter_length_sum {A} (p q r : A → bool) (l : list A) :
  Forall (λ x, Nat.b2n (p x) + Nat.b2n (q x) = Nat.b2n (r x)) l →
  length (filter (λ x, p x = true) l) + length (filter (λ x, q x = true) l)
  = length (filter (λ x, r x = true) l).
Proof.
  induction 1 as [|x l Hx _ IH]; [done|].
  rewrite !filter_cons.
  destruct (p x), (q x), (r x); simpl in Hx; try done;
    repeat match goal with
      | |- context [decide ?P] => destruct (decide P); try done
      end; simpl; lia.
Qed.

Lemma filter_length_none {A} (p : A → bool) (l : list A) :
  Forall (λ x, p x = false) l → length (filter (λ x, p x = true) l) = 0.
Proof.
  induction 1 as [|x l Hx _ IH]; [done|].
  rewrite filter_cons, decide_False; [done|]. by rewrite Hx.
Qed.

Section MorePost.
Context {F : Type} `{Arith F}.
Implicit Types (logits : ndarray F) (label : ndarray Z) (threshold : F).

(** The pixel pairs counted in a segmentation that [post] made, as pairs of
  logit and label. *)
Lemma count_where_post (p : Z → Z → bool) logits label threshold :
wf logits → wf label → shape logits = shape label →
count_where p
  (NDArray (shape logits)
     (zip_with (zip_with (post_pixel threshold)) (rows logits) (rows label)))
  label
= length (filter (λ xl, p (post_pixel threshold xl.1 xl.2) xl.2 = true)
                 (zip (ravel logits) (ravel label))).
Proof.
intros Hl Hb Hs. unfold count_where. rewrite ravel_post_rows by done.
assert (length (ravel logits) = length (ravel label)) as Hlen.
{ rewrite !length_ravel by done. unfold size. by rewrite Hs. }
revert Hlen. generalize (ravel logits) (ravel label).
intros xs. induction xs as [|x xs IH]; intros [|l ls] Hlen; simpl in *; try done.
rewrite !filter_cons. simpl. specialize (IH ls ltac:(lia)).
destruct (decide (p (post_pixel threshold x l) l = true)); simpl; by rewrite IH.
Qed.

(** X1: on a label that has pixels and whose shape is not that of the
  logits [post] raises IndexError; on a label of shape (0, 0) it returns
  the thresholded logits, 255 where the logit reaches the threshold and
  127 elsewhere, whatever their shape. *)
Theorem post_shape_mismatch logits label threshold :
wf logits → shape logits ≠ shape label →
(0 < (shape label).1 → 0 < (shape label).2 →
 post logits label threshold = Err IndexError)
∧ (shape label = (0, 0) →
   post logits label threshold
   = Ok (amap (λ x, if fge x threshold then 255 else 127)%Z logits)).
Proof.
intros (Hl & Hr & _) Hs. split.
- intros H1 H2. unfold post, setmask. simpl.
  rewrite decide_True by done. simpl.
  rewrite decide_False by congruence.
  rewrite decide_False; [done|].
  intros [[Hz|Ha] [Hz'|Hb]]; try lia.
  apply Hs. destruct (shape logits), (shape label). simpl in *. congruence.
- intros Hz. unfold post, setmask. simpl.
  rewrite decide_True by done. simpl.
  rewrite decide_False by congruence.
  rewrite decide_True by (rewrite Hz; simpl; auto).
  unfold mret, result_ret, amap. f_equal. f_equal.
  rewrite zip_with_rows_replicate.
  + rewrite rows_fmap_compose. done.
  + by rewrite length_fmap.
  + apply Forall_fmap. eapply Forall_impl; [exact Hr|].
    intros r Hlen. simpl in *. by rewrite length_fmap.
Qed.

(** X2: [metrics] raises ValueError when the shapes of segmentation and
  label do not broadcast, and nothing else makes it fail: on shapes that
  broadcast it returns eight numbers, the last (recall) equal to the
  fifth (sensitivity). *)
Theorem metrics_broadcast_or_error (segmentation label : ndarray Z) :
match broadcast_shape (shape segmentation) (shape label) with
| None => metrics (F:=F) segmentation label = Err ValueError
| Some _ =>
    ∃ v : list F, metrics segmentation label = Ok v
      ∧ length v = 8 ∧ v !! 7 = v !! 4
end.
Proof.
unfold metrics, true_positives, false_positives, true_negatives,
  false_negatives, count_and, logical_and, azip. simpl.
destruct (broadcast_shape (shape segmentation) (shape label)); simpl; eauto.
Qed.

End MorePost.

Lemma post_shape_mismatch_witness :
  wf example_logits
  ∧ shape example_logits ≠ shape example_row_label
  ∧ shape example_logits ≠ shape (NDArray (A:=Z) (0, 0) [])
  ∧ 0 < (shape example_row_label).1 ∧ 0 < (shape example_row_label).2
  ∧ post example_logits example_row_label 0%float = Err IndexError
  ∧ post example_logits (NDArray (0, 0) []) 0%float
    = Ok (NDArray (2, 2) [[255; 127]; [255; 255]]%Z).
Proof.
  assert (shape example_logits ≠ shape example_row_label) as Hs by done.
  assert (shape example_logits ≠ shape (NDArray (A:=Z) (0, 0) [])) as Hs'
    by done.
  split; [exact wf_example_logits|]. split; [exact Hs|]. split; [exact Hs'|].
  split; [simpl; lia|]. split; [simpl; lia|]. split.
  - apply (proj1 (post_shape_mismatch example_logits example_row_label
                    0%float wf_example_logits Hs)); simpl; lia.
  - exact (proj2 (post_shape_mismatch example_logits (NDArray (0, 0) [])
                    0%float wf_example_logits Hs') eq_refl).
Defined.

Lemma filter_zip_with_snd {A B C} (p : C → bool) (q : B → bool)
    (g : A → B → C) (l : list A) (k : list B) :
  (∀ x y, p (g x y) = q y) → length l = length k →
  length (filter (λ z, p z = true) (zip_with g l k))
  = length (filter (λ y, q y = true) k).
Proof.
  intros Hpq. revert k.
  induction l as [|x l IH]; intros [|y k] Hlen; simpl in *; try done.
  rewrite !filter_cons, Hpq. specialize (IH k ltac:(lia)).
  destruct (decide (q y = true)); simpl; by rewrite IH.
Qed.

Lemma count_pixels_negb {A} (p : A → bool) (a : ndarray A) :
  count_pixels p a + count_pixels (λ x, negb (p x)) a = length (ravel a).
Proof.
  unfold count_pixels. induction (ravel a) as [|x l IH]; [done|].
  rewrite !filter_cons. destruct (p x); simpl;
    repeat match goal with
      | |- context [decide ?P] => destruct (decide P); try done
      end; simpl; lia.
Qed.

Section Pipeline.
Context {F : Type} `{Arith F}.
Implicit Types (logits : ndarray F) (label : ndarray Z) (threshold : F).

Lemma same_length_ravel logits label :
wf logits → wf label → shape logits = shape label →
length (ravel logits) = length (ravel label).
Proof.
intros Hl Hb Hs. rewrite !length_ravel by done. unfold size. by rewrite Hs.
Qed.

(** The counts of [metrics] on the segmentation [post] made. *)
Lemma post_confusion_counts logits label threshold :
wf logits → wf label → shape logits = shape label →
∃ seg (tp fp tn fn : nat),
  post logits label threshold = Ok seg
  ∧ ravel seg = zip_with (post_pixel threshold) (ravel logits) (ravel label)
  ∧ true_positives seg label = Ok (Z.of_nat tp)
  ∧ false_positives seg label = Ok (Z.of_nat fp)
  ∧ true_negatives seg label = Ok (Z.of_nat tn)
  ∧ false_negatives seg label = Ok (Z.of_nat fn)
  ∧ tp = length (filter (λ xl, (post_pixel threshold xl.1 xl.2 =? 255)%Z
                               && (xl.2 =? 255)%Z = true)
                        (zip (ravel logits) (ravel label)))
  ∧ fp = length (filter (λ xl, (post_pixel threshold xl.1 xl.2 =? 255)%Z
                               && negb (xl.2 =? 255)%Z = true)
                        (zip (ravel logits) (ravel label)))
  ∧ tn = length (filter (λ xl, (post_pixel threshold xl.1 xl.2 =? 127)%Z
                               && (xl.2 =? 127)%Z = true)
                        (zip (ravel logits) (ravel label)))
  ∧ fn = length (filter (λ xl, (post_pixel threshold xl.1 xl.2 =? 127)%Z
                               && negb (xl.2 =? 127)%Z = true)
                        (zip (ravel logits) (ravel label)))
  ∧ tp + fp + tn + fn
    + count_pixels (λ v, negb (v =? 255) && negb (v =? 127))%Z seg
    = length (ravel label).
Proof.
intros Hl Hb Hs.
pose proof (wf_post_rows logits label threshold Hl Hb Hs) as Hseg.
destruct (confusion_counts _ label Hseg Hb Hs)
  as (tp & fp & tn & fn & Htp & Hfp & Htn & Hfn & Etp & Efp & Etn & Efn
      & _ & _ & Hall).
rewrite count_where_post in Etp, Efp, Etn, Efn by done.
eexists. exists tp, fp, tn, fn.
split; [by apply post_rows|]. split; [by apply ravel_post_rows|].
split_and!; try done.
rewrite Hall, <- (same_length_ravel logits label), (length_ravel logits)
  by done.
done.
Qed.

(** With labels 0, 127 and 255 only, a pixel labelled 255 is a true
  positive or a false negative and a pixel labelled 127 a false positive
  or a true negative, whatever the threshold. *)
Lemma post_counts_by_label threshold (xs : list F) (ls : list Z) :
length xs = length ls →
Forall (λ l, l = 0 ∨ l = 127 ∨ l = 255)%Z ls →
length (filter (λ xl, (post_pixel threshold xl.1 xl.2 =? 255)%Z
                      && (xl.2 =? 255)%Z = true) (zip xs ls))
+ length (filter (λ xl, (post_pixel threshold xl.1 xl.2 =? 127)%Z
                        && negb (xl.2 =? 127)%Z = true) (zip xs ls))
= length (filter (λ l, (l =? 255)%Z = true) ls)
∧ length (filter (λ xl, (post_pixel threshold xl.1 xl.2 =? 255)%Z
                        && negb (xl.2 =? 255)%Z = true) (zip xs ls))
  + length (filter (λ xl, (post_pixel threshold xl.1 xl.2 =? 127)%Z
                          && (xl.2 =? 127)%Z = true) (zip xs ls))
  = length (filter (λ l, (l =? 127)%Z = true) ls).
Proof.
intros Hlen Hvalues. split.
- rewrite <- (filter_zip_snd (λ l, l =? 255)%Z xs ls) by done.
  apply (filter_length_sum
           (λ xl, (post_pixel threshold xl.1 xl.2 =? 255)%Z && (xl.2 =? 255)%Z)
           (λ xl, (post_pixel threshold xl.1 xl.2 =? 127)%Z
                  && negb (xl.2 =? 127)%Z)
           (λ xl, (xl.2 =? 255)%Z)).
  apply Forall_forall. intros [x l] Hin. apply elem_of_zip_r in Hin.
  rewrite Forall_forall in Hvalues. simpl. unfold post_pixel.
  destruct (Hvalues l Hin) as [-> | [-> | ->]];
    destruct (fge x threshold); reflexivity.
- rewrite <- (filter_zip_snd (λ l, l =? 127)%Z xs ls) by done.
  apply (filter_length_sum
           (λ xl, (post_pixel threshold xl.1 xl.2 =? 255)%Z
                  && negb (xl.2 =? 255)%Z)
           (λ xl, (post_pixel threshold xl.1 xl.2 =? 127)%Z && (xl.2 =? 127)%Z)
           (λ xl, (xl.2 =? 127)%Z)).
  apply Forall_forall. intros [x l] Hin. apply elem_of_zip_r in Hin.
  rewrite Forall_forall in Hvalues. simpl. unfold post_pixel.
  destruct (Hvalues l Hin) as [-> | [-> | ->]];
    destruct (fge x threshold); reflexivity.
Qed.

(** [metrics(post(logits, label, threshold), label)] is the vector of the
  formulas on the counts of the pairs of logit and label. *)
Lemma metrics_at_counts logits label threshold :
wf logits → wf label → shape logits = shape label →
∃ tp fp tn fn : nat,
  metrics_at threshold logits label
  = Ok (metric_formulas (Z.of_nat tp) (Z.of_nat fp) (Z.of_nat tn)
                        (Z.of_nat fn))
  ∧ tp = length (filter (λ xl, (post_pixel threshold xl.1 xl.2 =? 255)%Z
                               && (xl.2 =? 255)%Z = true)
                        (zip (ravel logits) (ravel label)))
  ∧ fp = length (filter (λ xl, (post_pixel threshold xl.1 xl.2 =? 255)%Z
                               && negb (xl.2 =? 255)%Z = true)
                        (zip (ravel logits) (ravel label)))
  ∧ tn = length (filter (λ xl, (post_pixel threshold xl.1 xl.2 =? 127)%Z
                               && (xl.2 =? 127)%Z = true)
                        (zip (ravel logits) (ravel label)))
  ∧ fn = length (filter (λ xl, (post_pixel threshold xl.1 xl.2 =? 127)%Z
                               && negb (xl.2 =? 127)%Z = true)
                        (zip (ravel logits) (ravel label))).
Proof.
intros Hl Hb Hs.
pose proof (wf_post_rows logits label threshold Hl Hb Hs) as Hseg.
destruct (metrics_of_counts (F:=F) _ label Hseg Hb Hs)
  as (tp & fp & tn & fn & Hm & Etp & Efp & Etn & Efn & _).
rewrite count_where_post in Etp, Efp, Etn, Efn by done.
exists tp, fp, tn, fn. split_and!; try done.
unfold metrics_at. rewrite post_rows by done. exact Hm.
Qed.

(** X3: on the segmentation that [post] made, the four confusion counts
  of [metrics] together are the number of pixels whose label is not 0:
  the confusion matrix covers the breast area and nothing else. *)
Theorem confusion_covers_breast_area logits label threshold :
wf logits → wf label → shape logits = shape label →
∃ seg (tp fp tn fn : Z),
  post logits label threshold = Ok seg
  ∧ true_positives seg label = Ok tp
  ∧ false_positives seg label = Ok fp
  ∧ true_negatives seg label = Ok tn
  ∧ false_negatives seg label = Ok fn
  ∧ (tp + fp + tn + fn)%Z
    = Z.of_nat (count_pixels (λ l, negb (l =? 0)%Z) label).
Proof.
intros Hl Hb Hs.
destruct (post_confusion_counts logits label threshold Hl Hb Hs)
  as (seg & tp & fp & tn & fn & Hpost & Hravel & Htp & Hfp & Htn & Hfn
      & _ & _ & _ & _ & Hall).
exists seg, (Z.of_nat tp), (Z.of_nat fp), (Z.of_nat tn), (Z.of_nat fn).
split_and!; try done.
assert (count_pixels (λ v, negb (v =? 255) && negb (v =? 127))%Z seg
        = count_pixels (λ l, l =? 0)%Z label) as Hzero.
{ unfold count_pixels. rewrite Hravel. apply filter_zip_with_snd.
  - intros x l. unfold post_pixel.
    destruct (l =? 0)%Z, (fge x threshold); reflexivity.
  - by apply same_length_ravel. }
pose proof (count_pixels_negb (λ l, l =? 0)%Z label) as Hsplit.
lia.
Qed.

(** X4: when the label holds only 0, 127 and 255, on the segmentation
  that [post] made the true positives and false negatives together are
  the pixels labelled 255, and the false positives and true negatives
  together are the pixels labelled 127, at every threshold. *)
Theorem confusion_by_label logits label threshold :
wf logits → wf label → shape logits = shape label →
Forall (λ l, l = 0 ∨ l = 127 ∨ l = 255)%Z (ravel label) →
∃ seg (tp fp tn fn : Z),
  post logits label threshold = Ok seg
  ∧ true_positives seg label = Ok tp
  ∧ false_positives seg label = Ok fp
  ∧ true_negatives seg label = Ok tn
  ∧ false_negatives seg label = Ok fn
  ∧ (tp + fn)%Z = Z.of_nat (count_pixels (λ l, l =? 255)%Z label)
  ∧ (fp + tn)%Z = Z.of_nat (count_pixels (λ l, l =? 127)%Z label).
Proof.
intros Hl Hb Hs Hvalues.
destruct (post_confusion_counts logits label threshold Hl Hb Hs)
  as (seg & tp & fp & tn & fn & Hpost & Hravel & Htp & Hfp & Htn & Hfn
      & Etp & Efp & Etn & Efn & _).
exists seg, (Z.of_nat tp), (Z.of_nat fp), (Z.of_nat tn), (Z.of_nat fn).
split_and!; try done.
all: destruct (post_counts_by_label threshold (ravel logits) (ravel label)
                (same_length_ravel logits label Hl Hb Hs) Hvalues)
       as [H255 H127].
all: rewrite <- Nat2Z.inj_add; f_equal; unfold count_pixels; congruence.
Qed.

End Pipeline.

Lemma filter_zip_with_forall {A B C} (p : C → bool) (q : B → bool)
    (g : A → B → C) (l : list A) (k : list B) :
  Forall (λ x, ∀ y, p (g x y) = q y) l → length l = length k →
  length (filter (λ z, p z = true) (zip_with g l k))
  = length (filter (λ y, q y = true) k).
Proof.
  intros Hpq. revert k.
  induction Hpq as [|x l Hx _ IH]; intros [|y k] Hlen; simpl in *; try done.
  rewrite !filter_cons, Hx. specialize (IH k ltac:(lia)).
  destruct (decide (q y = true)); simpl; by rewrite IH.
Qed.

Lemma filter_zip_diag {A} (g : A → A → bool) (q : A → bool) (l : list A) :
  (∀ x, g x x = q x) →
  length (filter (λ p : A * A, g p.1 p.2 = true) (zip l l))
  = length (filter (λ x, q x = true) l).
Proof.
  intros Hgq. induction l as [|x l IH]; [done|].
  simpl. rewrite !filter_cons. simpl. rewrite Hgq.
  destruct (decide (q x = true)); simpl; by rewrite IH.
Qed.

Lemma filter_length_mono {A} (p q : A → bool) (l : list A) :
  (∀ x, p x = true → q x = true) →
  length (filter (λ x, p x = true) l) ≤ length (filter (λ x, q x = true) l).
Proof.
  intros Hpq. induction l as [|x l IH]; [done|].
  rewrite !filter_cons. specialize (Hpq x).
  destruct (decide (p x = true)) as [Hp|Hp].
  - rewrite decide_True by auto. simpl. lia.
  - destruct (decide (q x = true)); simpl; lia.
Qed.

(** X5: compared with itself a label has no false positive and no false
    negative: its true positives are its pixels equal to 255, its true
    negatives those equal to 127, and [metrics] is the vector of the
    formulas on these counts. *)
Theorem metrics_of_label_itself {F : Type} `{Arith F} (label : ndarray Z) :
  wf label →
  true_positives label label
  = Ok (Z.of_nat (count_pixels (λ l, l =? 255)%Z label))
  ∧ false_positives label label = Ok 0%Z
  ∧ true_negatives label label
    = Ok (Z.of_nat (count_pixels (λ l, l =? 127)%Z label))
  ∧ false_negatives label label = Ok 0%Z
  ∧ metrics (F:=F) label label
    = Ok (metric_formulas
            (Z.of_nat (count_pixels (λ l, l =? 255)%Z label)) 0
            (Z.of_nat (count_pixels (λ l, l =? 127)%Z label)) 0).
Proof.
  intros Hl.
  destruct (confusion_counts label label Hl Hl eq_refl)
    as (tp & fp & tn & fn & Htp & Hfp & Htn & Hfn & Etp & Efp & Etn & Efn & _).
  destruct (metrics_of_counts (F:=F) label label Hl Hl eq_refl)
    as (tp' & fp' & tn' & fn' & Hm & Etp' & Efp' & Etn' & Efn' & _).
  assert (tp = count_pixels (λ l, l =? 255)%Z label) as Htp_eq.
  { rewrite Etp. apply filter_zip_diag. intros x. by destruct (x =? 255)%Z. }
  assert (tn = count_pixels (λ l, l =? 127)%Z label) as Htn_eq.
  { rewrite Etn. apply filter_zip_diag. intros x. by destruct (x =? 127)%Z. }
  assert (fp = 0) as Hfp_eq.
  { rewrite Efp. unfold count_where.
    rewrite (filter_zip_diag (λ s l, (s =? 255) && negb (l =? 255))%Z
               (λ _, false)); [|intros x; by destruct (x =? 255)%Z].
    apply filter_length_none, Forall_forall. done. }
  assert (fn = 0) as Hfn_eq.
  { rewrite Efn. unfold count_where.
    rewrite (filter_zip_diag (λ s l, (s =? 127) && negb (l =? 127))%Z
               (λ _, false)); [|intros x; by destruct (x =? 127)%Z].
    apply filter_length_none, Forall_forall. done. }
  rewrite Hm, Htp, Hfp, Htn, Hfn.
  replace tp' with tp by congruence. replace fp' with fp by congruence.
  replace tn' with tn by congruence. replace fn' with fn by congruence.
  rewrite Hfp_eq, Hfn_eq, Htp_eq, Htn_eq. done.
Qed.

Section Extremes.
Context {F : Type} `{Arith F}.
Implicit Types (logits : ndarray F) (label : ndarray Z) (threshold : F).

(** X6: a threshold that no logit is below marks every pixel of the
  breast area (label not 0) as 255 and none as 127; a threshold that no
  logit reaches marks every pixel of the breast area as 127 and none as
  255. *)
Theorem post_threshold_extremes logits label threshold :
wf logits → wf label → shape logits = shape label →
∃ seg, post logits label threshold = Ok seg
  ∧ (Forall (λ x, fge x threshold = true) (ravel logits) →
     count_pixels (λ v, v =? 127)%Z seg = 0
     ∧ count_pixels (λ v, v =? 255)%Z seg
       = count_pixels (λ l, negb (l =? 0)%Z) label)
  ∧ (Forall (λ x, fge x threshold = false) (ravel logits) →
     count_pixels (λ v, v =? 255)%Z seg = 0
     ∧ count_pixels (λ v, v =? 127)%Z seg
       = count_pixels (λ l, negb (l =? 0)%Z) label).
Proof.
intros Hl Hb Hs. eexists. split; [by apply post_rows|].
pose proof (same_length_ravel logits label Hl Hb Hs) as Hlen.
unfold count_pixels. rewrite !ravel_post_rows by done.
split; intros Hall; split.
- rewrite (filter_zip_with_forall _ (λ _, false)); [| |done].
  + apply filter_length_none, Forall_forall. done.
  + eapply Forall_impl; [exact Hall|]. intros x Hx l. unfold post_pixel.
    rewrite Hx. by destruct (l =? 0)%Z.
- apply filter_zip_with_forall; [|done].
  eapply Forall_impl; [exact Hall|]. intros x Hx l. unfold post_pixel.
  rewrite Hx. by destruct (l =? 0)%Z.
- rewrite (filter_zip_with_forall _ (λ _, false)); [| |done].
  + apply filter_length_none, Forall_forall. done.
  + eapply Forall_impl; [exact Hall|]. intros x Hx l. unfold post_pixel.
    rewrite Hx. by destruct (l =? 0)%Z.
- apply filter_zip_with_forall; [|done].
  eapply Forall_impl; [exact Hall|]. intros x Hx l. unfold post_pixel.
  rewrite Hx. by destruct (l =? 0)%Z.
Qed.

End Extremes.

Section Monotone.
Local Open Scope R_scope.

Lemma xratio_value (a n : nat) :
fdiv (of_int (Z.of_nat a)) (fadd (of_int (Z.of_nat n)) epsilon)
= Fin (IZR (Z.of_nat a) / (IZR (Z.of_nat n) + 1e-7)).
Proof.
simpl. assert (0 <= IZR (Z.of_nat n)) by (apply IZR_le; lia).
destruct (Req_dec_T (IZR (Z.of_nat n) + 1e-7) 0) as [Hz|_]; [lra|]. done.
Qed.

Lemma ratio_mono (a b : nat) (d : R) :
(a ≤ b)%nat → 0 < d → IZR (Z.of_nat a) / d <= IZR (Z.of_nat b) / d.
Proof.
intros Hab Hd. unfold Rdiv. apply Rmult_le_compat_r.
- left. by apply Rinv_0_lt_compat.
- apply IZR_le. lia.
Qed.

(** X7: in exact arithmetic, with labels 0, 127 and 255 only, raising the
  threshold never raises the sensitivity (entry 4 of the metric vector)
  and never lowers the specificity (entry 5) of an example. *)
Theorem sensitivity_specificity_monotone (logits : ndarray xreal)
  (label : ndarray Z) (t1 t2 : xreal) :
wf logits → wf label → shape logits = shape label →
Forall (λ l, l = 0 ∨ l = 127 ∨ l = 255)%Z (ravel label) →
fge t2 t1 = true →
∃ (v1 v2 : list xreal) (s1 s2 c1 c2 : R),
  metrics_at t1 logits label = Ok v1
  ∧ metrics_at t2 logits label = Ok v2
  ∧ v1 !! 4%nat = Some (Fin s1) ∧ v2 !! 4%nat = Some (Fin s2) ∧ s2 <= s1
  ∧ v1 !! 5%nat = Some (Fin c1) ∧ v2 !! 5%nat = Some (Fin c2) ∧ c1 <= c2.
Proof.
intros Hl Hb Hs Hvalues Ht.
pose proof (same_length_ravel logits label Hl Hb Hs) as Hlen.
destruct (metrics_at_counts logits label t1 Hl Hb Hs)
  as (tp1 & fp1 & tn1 & fn1 & Hm1 & Etp1 & Efp1 & Etn1 & Efn1).
destruct (metrics_at_counts logits label t2 Hl Hb Hs)
  as (tp2 & fp2 & tn2 & fn2 & Hm2 & Etp2 & Efp2 & Etn2 & Efn2).
destruct (post_counts_by_label t1 _ _ Hlen Hvalues) as [Hpos1 Hneg1].
destruct (post_counts_by_label t2 _ _ Hlen Hvalues) as [Hpos2 Hneg2].
rewrite <- Etp1, <- Efn1 in Hpos1. rewrite <- Efp1, <- Etn1 in Hneg1.
rewrite <- Etp2, <- Efn2 in Hpos2. rewrite <- Efp2, <- Etn2 in Hneg2.
assert (tp2 ≤ tp1)%nat as Htp.
{ rewrite Etp1, Etp2. apply filter_length_mono. intros [x l]. simpl.
  unfold post_pixel. destruct (l =? 0)%Z; [done|].
  destruct (fge x t2) eqn:Hx; [|done].
  by rewrite (fge_trans x t2 t1). }
assert (tn1 ≤ tn2)%nat as Htn.
{ rewrite Etn1, Etn2. apply filter_length_mono. intros [x l]. simpl.
  unfold post_pixel. destruct (l =? 0)%Z; [done|].
  destruct (fge x t2) eqn:Hx.
  - by rewrite (fge_trans x t2 t1).
  - by destruct (fge x t1), (l =? 127)%Z. }
set (P := length (filter (λ l, (l =? 255)%Z = true) (ravel label))) in *.
set (N := length (filter (λ l, (l =? 127)%Z = true) (ravel label))) in *.
assert (0 <= IZR (Z.of_nat P)) as HP by (apply IZR_le; lia).
assert (0 <= IZR (Z.of_nat N)) as HN by (apply IZR_le; lia).
exists (metric_formulas (Z.of_nat tp1) (Z.of_nat fp1) (Z.of_nat tn1)
                        (Z.of_nat fn1)),
       (metric_formulas (Z.of_nat tp2) (Z.of_nat fp2) (Z.of_nat tn2)
                        (Z.of_nat fn2)),
       (IZR (Z.of_nat tp1) / (IZR (Z.of_nat P) + 1e-7)),
       (IZR (Z.of_nat tp2) / (IZR (Z.of_nat P) + 1e-7)),
       (IZR (Z.of_nat tn1) / (IZR (Z.of_nat N) + 1e-7)),
       (IZR (Z.of_nat tn2) / (IZR (Z.of_nat N) + 1e-7)).
split; [exact Hm1|]. split; [exact Hm2|].
unfold metric_formulas. cbv zeta. cbn [lookup list_lookup].
rewrite <- !Nat2Z.inj_add, Hpos1, Hpos2, Hneg1, Hneg2, !xratio_value.
split_and!; try done.
- apply ratio_mono; [done|lra].
- apply ratio_mono; [done|lra].
Qed.

End Monotone.

(** ** Further properties of the threshold sampler *)

Section SamplerGeneric.
Context {F : Type} `{Arith F} `{Transcendental F}.






End SamplerGeneric.



(** ** Further properties of the evaluation loop *)

Section MoreLoop.
Context {F : Type} `{Arith F}.
Variable csv_reader : list string → list (list string).
Variable imread : string → result (ndarray Z).
Variable predict : ndarray Z → ndarray F.

Lemma accumulate_app threshold (rows rows' : list (list string))
  (ms : list (list F)) metric_accum :
Forall2 (λ row m, example_metrics imread predict threshold row = Ok m)
        rows ms →
accumulate imread predict threshold (rows ++ rows') metric_accum
= accumulate imread predict threshold rows' (foldl vec_add metric_accum ms).
Proof.
intros Hrows. revert metric_accum.
induction Hrows as [|row m rows ms Hm _ IH]; intros metric_accum; [done|].
simpl. rewrite Hm. simpl. apply IH.
Qed.

(** X10: when an example fails (a missing field, an unreadable file, a
  label of another shape), the pass of the sweep has printed its
  threshold line only, no mean is reported, and the sweep ends there with
  the error of that example. *)
Theorem validate_stops_at_failure (lines : list string)
  (probs thresholds : list F) (i : nat) (t p : F)
  (good : list (list string)) (bad : list string)
  (rest : list (list string)) (ms : list (list F)) (e : error)
  (later : list nat) (out : list (event (F:=F))) :
thresholds !! i = Some t → probs !! i = Some p →
csv_reader lines = good ++ bad :: rest →
Forall2 (λ row m, example_metrics imread predict t row = Ok m) good ms →
example_metrics imread predict t bad = Err e →
mean_metrics csv_reader imread predict lines t = Err e
∧ validate csv_reader imread predict lines (Some (probs, thresholds)) i out
  = (out ++ [PrintThreshold i t p], Err e)
∧ sweep csv_reader imread predict lines (Some (probs, thresholds))
        (i :: later) out
  = (out ++ [PrintThreshold i t p], Err e).
Proof.
intros Ht Hp Hrows Hgood Hbad.
assert (mean_metrics csv_reader imread predict lines t = Err e) as Hmean.
{ unfold mean_metrics. rewrite Hrows, (accumulate_app _ _ _ ms) by done.
  simpl. by rewrite Hbad. }
assert (validate csv_reader imread predict lines (Some (probs, thresholds))
                 i out
        = (out ++ [PrintThreshold i t p], Err e)) as Hvalidate.
{ unfold validate, mbind, io_bind, lift, print, index.
  cbn [from_option]. by rewrite Ht, Hp, Hmean. }
split; [done|]. split; [done|].
cbn [sweep]. unfold mbind at 1. unfold io_bind at 1. by rewrite Hvalidate.
Qed.

End MoreLoop.

Lemma validate_stops_at_failure_witness :
  let t := 0%float in
  let p := 0.5%float in
  let good := [["a.png"; "a_mask.png"]] in
  let bad := ["b.png"; "b_mask.png"] in
  let ms := [metric_formulas (F:=float) 2 0 1 0] in
  [t] !! 0 = Some t ∧ [p] !! 0 = Some p
  ∧ example_csv_reader example_lines_missing = good ++ bad :: []
  ∧ Forall2 (λ row m,
       example_metrics example_imread example_predict t row = Ok m) good ms
  ∧ example_metrics example_imread example_predict t bad = Err IOError
  ∧ mean_metrics example_csv_reader example_imread example_predict
                 example_lines_missing t = Err IOError
  ∧ validate example_csv_reader example_imread example_predict
             example_lines_missing (Some ([p], [t])) 0 []
    = ([] ++ [PrintThreshold 0 t p], Err IOError)
  ∧ sweep example_csv_reader example_imread example_predict
          example_lines_missing (Some ([p], [t])) (0 :: [1; 2]) []
    = ([] ++ [PrintThreshold 0 t p], Err IOError).
Proof.
  intros t p good bad ms.
  assert (Forall2 (λ row m,
            example_metrics example_imread example_predict t row = Ok m)
                  good ms) as Hgood by (by repeat constructor).
  split; [reflexivity|]. split; [reflexivity|]. split; [reflexivity|].
  split; [exact Hgood|]. split; [reflexivity|].
  apply (validate_stops_at_failure example_csv_reader example_imread
           example_predict example_lines_missing [p] [t] 0 t p good bad []
           ms IOError [1; 2] []);
    [reflexivity|reflexivity|reflexivity|exact Hgood|reflexivity].
Defined.

Section Run.
Context {F : Type} `{Arith F} `{Transcendental F}.
Variable csv_reader : list string → list (list string).
Variable imread : string → result (ndarray Z).
Variable predict : ndarray Z → ndarray F.
Variable logistic_loss : ndarray Z → ndarray Z → F.

(** X11: when the image of the drawn manifest line cannot be read, [main]
  ends with the error of the reader before it has printed anything. *)
Theorem main_sampling_failure (lines : list string) (seed : nat)
  (rand_line : string) (row : list string) (rest : list (list string))
  (name : string) (e : error) (out : list (event (F:=F))) :
index lines (seed `mod` length lines) = Ok rand_line →
csv_reader [rand_line] = row :: rest →
row !! 0 = Some name →
imread (data_dir +:+ name) = Err e →
main csv_reader imread predict logistic_loss lines seed out = (out, Err e).
Proof.
intros Hline Hrow Hname Him.
assert (length lines ≠ 0) as Hlen.
{ intros Hz. unfold index in Hline. rewrite Hz in Hline.
  destruct lines; [done|]. done. }
unfold main, mbind, io_bind, lift, randint.
rewrite decide_False by done. rewrite Hline, Hrow.
cbn [sample_rows]. unfold index at 1. rewrite Hname.
cbn [mbind result_bind]. by rewrite Him.
Qed.






End Run.

Section CleanRun.
Context {F : Type} `{Arith F} `{Transcendental F}.
Variable csv_reader : list string → list (list string).
Variable imread : string → result (ndarray Z).
Variable predict : ndarray Z → ndarray F.
Variable logistic_loss : ndarray Z → ndarray Z → F.



End CleanRun.

Section MeanBounds.
Local Open Scope R_scope.
Variable csv_reader : list string → list (list string).
Variable imread : string → result (ndarray Z).
Variable predict : ndarray Z → ndarray xreal.




End MeanBounds.

(** ** The mean of the metric vectors *)

Section MeanLaw.
Context {F : Type} `{Arith F}.
Variable csv_reader : list string → list (list string).
Variable imread : string → result (ndarray Z).
Variable predict : ndarray Z → ndarray F.

Lemma length_metrics (segmentation label : ndarray Z) (m : list F) :
metrics segmentation label = Ok m → length m = 8.
Proof.
unfold metrics.
destruct (true_positives segmentation label); [|done].
destruct (false_positives segmentation label); [|done].
destruct (true_negatives segmentation label); [|done].
destruct (false_negatives segmentation label); [|done].
cbn [mbind result_bind mret result_ret]. intros Hm.
injection Hm as <-. reflexivity.
Qed.

Lemma length_metrics_at threshold (logits : ndarray F) (label : ndarray Z)
  (m : list F) :
metrics_at threshold logits label = Ok m → length m = 8.
Proof.
unfold metrics_at. destruct (post logits label threshold); [|done].
apply length_metrics.
Qed.

(** The accumulator after the loop, entry by entry. *)
Lemma foldl_vec_add_columns (ms : list (list F)) (acc : list F) :
length acc = 8 → Forall (λ m, length m = 8) ms →
foldl vec_add acc ms
= (λ j, foldl fadd (nth j acc (of_int 0)) (column j ms)) <$> seq 0 8.
Proof.
intros Hacc Hms. revert acc Hacc.
induction Hms as [|m ms Hm _ IH]; intros acc Hacc.
- destruct acc as [|a0 [|a1 [|a2 [|a3 [|a4 [|a5 [|a6 [|a7 [|]]]]]]]]];
    try done.
- cbn [foldl]. rewrite IH by (unfold vec_add; rewrite length_zip_with; lia).
  destruct acc as [|a0 [|a1 [|a2 [|a3 [|a4 [|a5 [|a6 [|a7 [|]]]]]]]]];
    try done.
  destruct m as [|m0 [|m1 [|m2 [|m3 [|m4 [|m5 [|m6 [|m7 [|]]]]]]]]];
    try done.
Qed.

(** X15: when every entry that the reader gives names an image and a
  label that load, the mean metric vector of a threshold is, entry by
  entry, the sum from 0 on and in manifest order of
  [metrics(post(logits_i, label_i, threshold), label_i)] over the
  entries, divided by the number of manifest lines; the pass of the
  sweep prints the threshold and then the eight named means. *)
Theorem mean_metrics_is_mean (lines : list string)
  (probs thresholds : list F) (i : nat) (t p : F)
  (examples : list (ndarray F * ndarray Z)) (ms : list (list F))
  (out : list (event (F:=F))) :
thresholds !! i = Some t → probs !! i = Some p →
Forall2 (λ row e, loads imread predict row e.1 e.2)
        (csv_reader lines) examples →
Forall2 (λ e m, metrics_at t e.1 e.2 = Ok m) examples ms →
mean_metrics csv_reader imread predict lines t
= Ok (mean_of ms (Z.of_nat (length lines)))
∧ validate csv_reader imread predict lines (Some (probs, thresholds)) i out
  = (out ++ PrintThreshold i t p
         :: zip_with PrintMetric metric_names
                     (mean_of ms (Z.of_nat (length lines)))
         ++ [PrintBlank],
     Ok ()).
Proof.
intros Ht Hp Hload Hms.
assert (Forall2 (λ row m, example_metrics imread predict t row = Ok m)
                (csv_reader lines) ms) as Hrows.
{ revert ms Hms.
  induction Hload as [|row e rows es Hrow _ IH]; intros ms Hms.
  - inversion Hms. constructor.
  - inversion Hms as [|? m ? ms' Hm Hms']; subst. constructor; [|by apply IH].
    by rewrite (example_metrics_loads _ _ _ _ _ _ Hrow). }
assert (Forall (λ m, length m = 8) ms) as Hlen.
{ clear Hrows Hload. induction Hms as [|e m es ms Hm _ IH]; [done|].
  apply Forall_cons. split; [|done]. by eapply length_metrics_at. }
assert (mean_metrics csv_reader imread predict lines t
        = Ok (mean_of ms (Z.of_nat (length lines)))) as Hmean.
{ unfold mean_metrics. rewrite (accumulate_foldl _ _ _ _ ms) by done.
  cbn [mbind result_bind mret result_ret]. f_equal.
  rewrite foldl_vec_add_columns by done. unfold vec_div, mean_of.
  rewrite <- list_fmap_compose. apply list_fmap_ext.
  intros k j Hj. apply lookup_seq in Hj as [-> Hj]. cbn [compose].
  do 2 f_equal.
  do 8 (destruct k as [|k]; [reflexivity|]). lia. }
split; [done|]. by apply validate_output.
Qed.

End MeanLaw.

(** ** The further properties on the examples *)

Lemma example_values :
  Forall (λ l, l = 0 ∨ l = 127 ∨ l = 255)%Z (ravel example_label).
Proof.
  unfold ravel. simpl. repeat (apply Forall_cons; split; [auto|]).
  apply Forall_nil_2.
Qed.

Lemma confusion_covers_breast_area_witness :
  wf example_logits ∧ wf example_label
  ∧ shape example_logits = shape example_label
  ∧ ∃ seg (tp fp tn fn : Z),
    post example_logits example_label 0%float = Ok seg
    ∧ true_positives seg example_label = Ok tp
    ∧ false_positives seg example_label = Ok fp
    ∧ true_negatives seg example_label = Ok tn
    ∧ false_negatives seg example_label = Ok fn
    ∧ (tp + fp + tn + fn)%Z
      = Z.of_nat (count_pixels (λ l, negb (l =? 0)%Z) example_label).
Proof.
  split; [exact wf_example_logits|]. split; [exact wf_example_label|].
  split; [reflexivity|].
  apply (confusion_covers_breast_area example_logits example_label 0%float);
    [exact wf_example_logits|exact wf_example_label|reflexivity].
Defined.

Lemma confusion_by_label_witness :
  wf example_logits ∧ wf example_label
  ∧ shape example_logits = shape example_label
  ∧ Forall (λ l, l = 0 ∨ l = 127 ∨ l = 255)%Z (ravel example_label)
  ∧ ∃ seg (tp fp tn fn : Z),
    post example_logits example_label 0%float = Ok seg
    ∧ true_positives seg example_label = Ok tp
    ∧ false_positives seg example_label = Ok fp
    ∧ true_negatives seg example_label = Ok tn
    ∧ false_negatives seg example_label = Ok fn
    ∧ (tp + fn)%Z = Z.of_nat (count_pixels (λ l, l =? 255)%Z example_label)
    ∧ (fp + tn)%Z = Z.of_nat (count_pixels (λ l, l =? 127)%Z example_label).
Proof.
  split; [exact wf_example_logits|]. split; [exact wf_example_label|].
  split; [reflexivity|]. split; [exact example_values|].
  apply (confusion_by_label example_logits example_label 0%float);
    [exact wf_example_logits|exact wf_example_label|reflexivity
    |exact example_values].
Defined.

Lemma metrics_of_label_itself_witness :
  wf example_label
  ∧ true_positives example_label example_label
    = Ok (Z.of_nat (count_pixels (λ l, l =? 255)%Z example_label))
  ∧ false_positives example_label example_label = Ok 0%Z
  ∧ true_negatives example_label example_label
    = Ok (Z.of_nat (count_pixels (λ l, l =? 127)%Z example_label))
  ∧ false_negatives example_label example_label = Ok 0%Z
  ∧ metrics (F:=float) example_label example_label
    = Ok (metric_formulas
            (Z.of_nat (count_pixels (λ l, l =? 255)%Z example_label)) 0
            (Z.of_nat (count_pixels (λ l, l =? 127)%Z example_label)) 0).
Proof.
  split; [exact wf_example_label|].
  apply (metrics_of_label_itself (F:=float) example_label).
  exact wf_example_label.
Defined.

Lemma post_threshold_extremes_witness :
  wf example_logits ∧ wf example_label
  ∧ shape example_logits = shape example_label
  ∧ ∃ seg, post example_logits example_label (-1)%float = Ok seg
    ∧ (Forall (λ x, fge x (-1)%float = true) (ravel example_logits) →
       count_pixels (λ v, v =? 127)%Z seg = 0
       ∧ count_pixels (λ v, v =? 255)%Z seg
         = count_pixels (λ l, negb (l =? 0)%Z) example_label)
    ∧ (Forall (λ x, fge x (-1)%float = false) (ravel example_logits) →
       count_pixels (λ v, v =? 255)%Z seg = 0
       ∧ count_pixels (λ v, v =? 127)%Z seg
         = count_pixels (λ l, negb (l =? 0)%Z) example_label).
Proof.
  split; [exact wf_example_logits|]. split; [exact wf_example_label|].
  split; [reflexivity|].
  apply (post_threshold_extremes example_logits example_label (-1)%float);
    [exact wf_example_logits|exact wf_example_label|reflexivity].
Defined.

Lemma wf_example_image : wf example_image.
Proof. split_and!; [done|by repeat constructor|by vm_compute]. Qed.

Lemma wf_example_xlogits : wf (example_xpredict example_image).
Proof. apply wf_amap, wf_example_image. Qed.

Lemma sensitivity_specificity_monotone_witness :
  let logits := example_xpredict example_image in
  wf logits ∧ wf example_label ∧ shape logits = shape example_label
  ∧ Forall (λ l, l = 0 ∨ l = 127 ∨ l = 255)%Z (ravel example_label)
  ∧ fge (Fin 2) (Fin 1) = true
  ∧ ∃ (v1 v2 : list xreal) (s1 s2 c1 c2 : R),
    metrics_at (Fin 1) logits example_label = Ok v1
    ∧ metrics_at (Fin 2) logits example_label = Ok v2
    ∧ v1 !! 4 = Some (Fin s1) ∧ v2 !! 4 = Some (Fin s2) ∧ (s2 <= s1)%R
    ∧ v1 !! 5 = Some (Fin c1) ∧ v2 !! 5 = Some (Fin c2) ∧ (c1 <= c2)%R.
Proof.
  intros logits.
  assert (fge (Fin 2) (Fin 1) = true) as Ht
    by (apply bool_decide_eq_true; lra).
  split; [exact wf_example_xlogits|]. split; [exact wf_example_label|].
  split; [reflexivity|]. split; [exact example_values|]. split; [exact Ht|].
  apply (sensitivity_specificity_monotone logits example_label (Fin 1) (Fin 2));
    [exact wf_example_xlogits|exact wf_example_label|reflexivity
    |exact example_values|exact Ht].
Defined.

Lemma main_sampling_failure_witness :
  let lines := ["b.png,b_mask.png"] in
  index lines (0 `mod` length lines) = Ok "b.png,b_mask.png"
  ∧ example_csv_reader ["b.png,b_mask.png"] = ["b.png"; "b_mask.png"] :: []
  ∧ ["b.png"; "b_mask.png"] !! 0 = Some "b.png"
  ∧ example_imread (data_dir +:+ "b.png") = Err IOError
  ∧ main example_csv_reader example_imread example_xpredict example_xloss
         lines 0 []
    = ([], Err IOError).
Proof.
  intros lines.
  split; [reflexivity|]. split; [reflexivity|]. split; [reflexivity|].
  split; [reflexivity|].
  apply (main_sampling_failure example_csv_reader example_imread
           example_xpredict example_xloss lines 0 "b.png,b_mask.png"
           ["b.png"; "b_mask.png"] [] "b.png" IOError []);
    reflexivity.
Defined.




Lemma mean_metrics_is_mean_witness :
  let t := 0%float in
  let p := 0.5%float in
  let logits := example_predict example_image in
  let examples := [(logits, example_label); (logits, example_label)] in
  let m := metric_formulas (F:=float) 2 0 1 0 in
  [t] !! 0 = Some t ∧ [p] !! 0 = Some p
  ∧ Forall2 (λ row e, loads example_imread example_predict row e.1 e.2)
            (py_csv_reader example_lines_two) examples
  ∧ Forall2 (λ e m, metrics_at t e.1 e.2 = Ok m) examples [m; m]
  ∧ mean_metrics py_csv_reader example_imread example_predict
                 example_lines_two t
    = Ok (mean_of [m; m] (Z.of_nat (length example_lines_two)))
  ∧ validate py_csv_reader example_imread example_predict example_lines_two
             (Some ([p], [t])) 0 []
    = ([] ++ PrintThreshold 0 t p
          :: zip_with PrintMetric metric_names
                      (mean_of [m; m] (Z.of_nat (length example_lines_two)))
          ++ [PrintBlank],
       Ok ()).
Proof.
  intros t p logits examples m.
  assert (Forall2 (λ row e, loads example_imread example_predict row e.1 e.2)
                  (py_csv_reader example_lines_two) examples) as Hload.
  { repeat constructor; exists "a.png", "a_mask.png", example_image;
      repeat split; reflexivity. }
  assert (Forall2 (λ e m, metrics_at t e.1 e.2 = Ok m) examples [m; m]) as Hms.
  { by repeat constructor. }
  split; [reflexivity|]. split; [reflexivity|].
  split; [exact Hload|]. split; [exact Hms|].
  apply (mean_metrics_is_mean py_csv_reader example_imread example_predict
           example_lines_two [p] [t] 0 t p examples [m; m] []);
    [reflexivity|reflexivity|exact Hload|exact Hms].
Defined.
